(** * games-to-calendar: the DDLC game fetcher, embedded and verified

    A shallow embedding of [src/main.py] (class [DDLCGameFetcher]) and the
    properties of its date resolution, row normalisation and calendar writer.

    Python values are modelled as follows.
    - [str] is a list of Unicode code points ([pystr]); literals are written
      as in the source and decoded from UTF-8 by [u].
    - The Unicode character database and the interpreter's limit on
      int/str conversion are the fields of the class [Runtime]; every
      definition is generic in it, and [cpython_latin1] is the instance used
      to run the code on texts of the Basic Latin and Latin-1 blocks.
    - Exceptions are the constructors of [exn]; code that reads the clock or
      can raise lives in the monad [M]. *)

From Stdlib Require Import ZArith NArith List String Ascii Bool Lia Sorted.
From stdpp Require Import base option list gmap.

Import ListNotations.
Local Open Scope Z_scope.

Set Warnings "-register-all".

(** ** Python strings *)

Definition cp := N.
Definition pystr := list cp.

(** UTF-8 decoding of a source literal (well-formed input only). *)
Fixpoint utf8_decode (bs : list N) : pystr :=
  match bs with
  | [] => []
  | b :: r =>
      if (b <? 128)%N then b :: utf8_decode r
      else if (b <? 224)%N then
        match r with
        | c1 :: r' => ((b - 192) * 64 + (c1 - 128))%N :: utf8_decode r'
        | _ => []
        end
      else if (b <? 240)%N then
        match r with
        | c1 :: c2 :: r' =>
            ((b - 224) * 4096 + (c1 - 128) * 64 + (c2 - 128))%N :: utf8_decode r'
        | _ => []
        end
      else
        match r with
        | c1 :: c2 :: c3 :: r' =>
            ((b - 240) * 262144 + (c1 - 128) * 4096 + (c2 - 128) * 64 + (c3 - 128))%N
              :: utf8_decode r'
        | _ => []
        end
  end.

Definition u (s : string) : pystr :=
  utf8_decode (map N_of_ascii (list_ascii_of_string s)).

(** [prefix_of p s]: [s.startswith(p)]. *)
Fixpoint prefix_of (p s : pystr) : bool :=
  match p, s with
  | [], _ => true
  | a :: p', b :: s' => (a =? b)%N && prefix_of p' s'
  | _ :: _, [] => false
  end.

(** [str_in needle hay]: the Python test [needle in hay] on strings. *)
Fixpoint str_in (needle hay : pystr) : bool :=
  prefix_of needle hay ||
  match hay with
  | [] => false
  | _ :: hay' => str_in needle hay'
  end.

(** [s.split(sep)] for a one-character separator. *)
Fixpoint split_on (sep : cp) (s : pystr) : list pystr :=
  match s with
  | [] => [[]]
  | c :: s' =>
      if (c =? sep)%N then [] :: split_on sep s'
      else match split_on sep s' with
           | w :: ws => (c :: w) :: ws
           | [] => [[c]]
           end
  end.

(** ** The interpreter: character database and conversion limit *)

Class Runtime := {
  (** [Py_UNICODE_ISDECIMAL]: the class [\d] of [re] on [str] patterns. *)
  isdecimal : cp -> bool;
  (** [Py_UNICODE_TODECIMAL]: the value [int()] gives a decimal digit. *)
  decimal_value : cp -> Z;
  (** [Py_UNICODE_ISSPACE]: [\s], [str.strip()] and [str.split()]. *)
  isspace : cp -> bool;
  (** [Py_UNICODE_ISALNUM]: [\w] is this class and the underscore. *)
  isalnum : cp -> bool;
  (** [str.lower()]; it works on the whole string (final sigma). *)
  str_lower : pystr -> pystr;
  (** [sys.get_int_max_str_digits()]; [0] switches the limit off. *)
  int_max_str_digits : nat
}.

(** *** The Latin-1 fragment of CPython 3.11 *)

Definition in_range (lo hi c : N) : bool := ((lo <=? c) && (c <=? hi))%N.

Definition latin1_isdecimal (c : cp) : bool := in_range 48 57 c.

Definition latin1_decimal_value (c : cp) : Z := Z.of_N c - 48.

Definition latin1_isspace (c : cp) : bool :=
  in_range 9 13 c || in_range 28 32 c || (c =? 133)%N || (c =? 160)%N.

Definition latin1_isalnum (c : cp) : bool :=
  in_range 48 57 c || in_range 65 90 c || in_range 97 122 c
  || (c =? 170)%N || (c =? 178)%N || (c =? 179)%N || (c =? 181)%N
  || (c =? 185)%N || (c =? 186)%N || in_range 188 190 c
  || in_range 192 214 c || in_range 216 246 c || in_range 248 255 c.

Definition latin1_lower_char (c : cp) : cp :=
  if in_range 65 90 c || in_range 192 214 c || in_range 216 222 c
  then (c + 32)%N else c.

Definition cpython_latin1 : Runtime := {|
  isdecimal := latin1_isdecimal;
  decimal_value := latin1_decimal_value;
  isspace := latin1_isspace;
  isalnum := latin1_isalnum;
  str_lower := map latin1_lower_char;
  int_max_str_digits := 4300
|}.

(** Lower-casing of an ASCII text, which no context changes. *)
Definition ascii_lower_char (c : cp) : cp :=
  if in_range 65 90 c then (c + 32)%N else c.

Definition is_ascii (s : pystr) : bool := forallb (fun c => (c <? 128)%N) s.

(** What [str.lower()] guarantees about an ASCII fragment of its argument:
    it is lowered in place, whatever surrounds it. *)
Definition lower_keeps_ascii (R : Runtime) : Prop :=
  forall (x m y : pystr), is_ascii m = true ->
    exists x' y', str_lower (x ++ m ++ y) = x' ++ map ascii_lower_char m ++ y'.

Section Strings.
Context {R : Runtime}.

(** [s.lstrip()], [s.rstrip()], [s.strip()]. *)
Fixpoint lstrip (s : pystr) : pystr :=
  match s with
  | c :: s' => if isspace c then lstrip s' else s
  | [] => []
  end.

Definition rstrip (s : pystr) : pystr := rev (lstrip (rev s)).

Definition strip (s : pystr) : pystr := rstrip (lstrip s).

(** [s.split()]: the maximal runs of non-space characters. [cur] is the
    run being read, reversed. *)
Fixpoint split_ws_go (cur : pystr) (s : pystr) : list pystr :=
  match s with
  | [] => match cur with [] => [] | _ => [rev cur] end
  | c :: s' =>
      if isspace c
      then match cur with
           | [] => split_ws_go [] s'
           | _ => rev cur :: split_ws_go [] s'
           end
      else split_ws_go (c :: cur) s'
  end.

Definition split_ws (s : pystr) : list pystr := split_ws_go [] s.

End Strings.

(** ** Regular expressions

    The fragment of [re] the source uses: a pattern is a sequence of greedy,
    bounded repetitions of one character class, capture-group brackets and
    the anchors [^] and [$]. Matching backtracks as [re] does: a repetition
    takes as many characters as it can and gives them back one by one. *)

Module Re.

Inductive cclass :=
| Digit                (* \d *)
| Space                (* \s *)
| Word                 (* \w *)
| Lit (c : cp)         (* one literal character *)
| NotLit (c : cp).     (* [^c] *)

Inductive item :=
| Rep (k : cclass) (lo : nat) (hi : option nat)   (* k{lo,hi}; hi = None: no bound *)
| Open                                            (* ( *)
| Close                                           (* ) *)
| Bol                                             (* ^ *)
| Eol.                                            (* $ *)

Definition regex := list item.

(** A match object: its groups 1, 2, ... and the offsets it spans. *)
Record rmatch := { groups : list pystr; m_start : nat; m_end : nat }.

(** [m.group(i)] for [i >= 1]. *)
Definition group (m : rmatch) (i : nat) : pystr := nth (Nat.pred i) (groups m) [].

(** The matcher's state: the offset reached, the text of the group being
    read (reversed) and the groups already closed. *)
Record mstate := { pos : nat; cur : option pystr; caps : list pystr; from : nat }.

Definition start_at (p : nat) : mstate :=
  {| pos := p; cur := None; caps := []; from := p |}.

Definition one (k : cclass) : item := Rep k 1 (Some 1%nat).
Definition plus (k : cclass) : item := Rep k 1 None.
Definition star (k : cclass) : item := Rep k 0 None.
Definition exactly (n : nat) (k : cclass) : item := Rep k n (Some n).
Definition lits (s : pystr) : regex := map (fun c => one (Lit c)) s.

Section Engine.
Context {R : Runtime}.

Definition in_class (k : cclass) (c : cp) : bool :=
  match k with
  | Digit => isdecimal c
  | Space => isspace c
  | Word => isalnum c || (c =? 95)%N
  | Lit a => (c =? a)%N
  | NotLit a => negb (c =? a)%N
  end.

Definition take (c : cp) (st : mstate) : mstate :=
  {| pos := S (pos st); cur := option_map (cons c) (cur st);
     caps := caps st; from := from st |}.

Definition may_take (hi : option nat) : bool :=
  match hi with Some O => false | _ => true end.

(** [rep k cont lo hi st s]: match [k{lo,hi}] greedily at [s], then the
    rest of the pattern ([cont]); on failure of the rest, give one
    character back. *)
Fixpoint rep (k : cclass) (cont : mstate -> pystr -> option rmatch)
    (lo : nat) (hi : option nat) (st : mstate) (s : pystr) : option rmatch :=
  let stop := match lo with O => cont st s | S _ => None end in
  match s with
  | c :: s' =>
      if in_class k c && may_take hi
      then match rep k cont (Nat.pred lo) (option_map Nat.pred hi) (take c st) s' with
           | Some r => Some r
           | None => stop
           end
      else stop
  | [] => stop
  end.

Fixpoint match_at (re : regex) (st : mstate) (s : pystr) : option rmatch :=
  match re with
  | [] => Some {| groups := caps st; m_start := from st; m_end := pos st |}
  | Rep k lo hi :: re' => rep k (match_at re') lo hi st s
  | Open :: re' =>
      match_at re' {| pos := pos st; cur := Some []; caps := caps st; from := from st |} s
  | Close :: re' =>
      match_at re'
        {| pos := pos st; cur := None;
           caps := caps st ++ [rev (default [] (cur st))]; from := from st |} s
  | Bol :: re' => if Nat.eqb (pos st) 0 then match_at re' st s else None
  | Eol :: re' =>
      match s with
      | [] => match_at re' st s
      | [c] => if (c =? 10)%N then match_at re' st s else None
      | _ => None
      end
  end.

(** [re.match(pattern, s)]. *)
Definition rmatch_ (re : regex) (s : pystr) : option rmatch :=
  match_at re (start_at 0) s.

(** [re.search(pattern, s)]: the leftmost offset at which it matches. *)
Fixpoint search_from (re : regex) (p : nat) (s : pystr) : option rmatch :=
  match match_at re (start_at p) s with
  | Some m => Some m
  | None =>
      match s with
      | [] => None
      | _ :: s' => search_from re (S p) s'
      end
  end.

Definition search (re : regex) (s : pystr) : option rmatch := search_from re 0 s.

(** [re.sub(pattern, repl, s)]: every match, left to right, replaced.
    [skip] counts the characters of the last match still to pass. *)
Fixpoint sub_go (re : regex) (repl : pystr) (p : nat) (skip : nat) (s : pystr) : pystr :=
  match skip with
  | S k =>
      match s with
      | [] => []
      | _ :: s' => sub_go re repl (S p) k s'
      end
  | O =>
      match match_at re (start_at p) s with
      | Some m =>
          match (m_end m - p)%nat, s with
          | S k, _ :: s' => repl ++ sub_go re repl (S p) k s'
          | O, c :: s' => repl ++ c :: sub_go re repl (S p) 0 s'
          | _, [] => repl
          end
      | None =>
          match s with
          | [] => []
          | c :: s' => c :: sub_go re repl (S p) 0 s'
          end
      end
  end.

Definition sub (re : regex) (repl s : pystr) : pystr := sub_go re repl 0 0 s.

End Engine.

End Re.

(** ** Exceptions, and the monad of code that reads the clock *)

Inductive exn :=
| ValueError
| IndexError
| OverflowError
| TimeoutError.         (* playwright.async_api.TimeoutError *)

Inductive result (A : Type) :=
| Ok (a : A)
| Raise (e : exn).

Arguments Ok {A} a.
Arguments Raise {A} e.

Definition exn_eqb (a b : exn) : bool :=
  match a, b with
  | ValueError, ValueError | IndexError, IndexError
  | OverflowError, OverflowError | TimeoutError, TimeoutError => true
  | _, _ => false
  end.

Definition rbind {A B} (r : result A) (k : A -> result B) : result B :=
  match r with
  | Ok a => k a
  | Raise e => Raise e
  end.

(** [try: body except handled: handler] on results. *)
Definition rcatch {A} (handled : list exn) (body : result A) (handler : result A) : result A :=
  match body with
  | Ok a => Ok a
  | Raise e => if existsb (exn_eqb e) handled then handler else Raise e
  end.

Definition M (A : Type) : Type := nat -> result (A * nat).

Definition ret {A} (a : A) : M A := fun t => Ok (a, t).

Definition bind {A B} (c : M A) (k : A -> M B) : M B :=
  fun t => match c t with
           | Ok (a, t') => k a t'
           | Raise e => Raise e
           end.

Definition lift {A} (r : result A) : M A :=
  fun t => match r with
           | Ok a => Ok (a, t)
           | Raise e => Raise e
           end.

Notation "x <- c ;; k" := (bind c (fun x => k))
  (at level 100, c at next level, right associativity).

(** ** int() on the text of a digit group

    The source applies [int] only to what [\d] matched; other texts are
    refused here, as [int] refuses a text with no digit. *)

Section Int.
Context {R : Runtime}.

Definition over_digit_limit (s : pystr) : bool :=
  (0 <? int_max_str_digits)%nat && (int_max_str_digits <? length s)%nat.

Definition py_int (s : pystr) : result Z :=
  if over_digit_limit s then Raise ValueError
  else match s with
       | [] => Raise ValueError
       | _ => if forallb isdecimal s
              then Ok (fold_left (fun acc c => acc * 10 + decimal_value c) s 0)
              else Raise ValueError
       end.

End Int.

(** ** datetime *)

Record datetime := {
  year : Z; month : Z; day : Z;
  hour : Z; minute : Z; second : Z; microsecond : Z
}.

(** [_is_leap], [_days_in_month], [_days_before_year], [_days_before_month]
    and [_ymd2ord] of the datetime module. *)
Definition is_leap (y : Z) : bool :=
  (y mod 4 =? 0) && (negb (y mod 100 =? 0) || (y mod 400 =? 0)).

Definition DAYS_IN_MONTH : list Z := [31; 28; 31; 30; 31; 30; 31; 31; 30; 31; 30; 31].

Definition days_in_month (y m : Z) : Z :=
  if (m =? 2) && is_leap y then 29
  else nth (Z.to_nat (m - 1)) DAYS_IN_MONTH 0.

Definition days_before_year (y : Z) : Z :=
  let y' := y - 1 in y' * 365 + y' / 4 - y' / 100 + y' / 400.

Definition DAYS_BEFORE_MONTH : list Z :=
  [0; 31; 59; 90; 120; 151; 181; 212; 243; 273; 304; 334].

Definition days_before_month (y m : Z) : Z :=
  nth (Z.to_nat (m - 1)) DAYS_BEFORE_MONTH 0
  + (if (2 <? m) && is_leap y then 1 else 0).

Definition ymd2ord (y m d : Z) : Z :=
  days_before_year y + days_before_month y m + d.

(** [dt.toordinal()], and the minutes elapsed since the start of day 0. *)
Definition toordinal (dt : datetime) : Z := ymd2ord (year dt) (month dt) (day dt).

Definition minute_stamp (dt : datetime) : Z :=
  toordinal dt * 1440 + hour dt * 60 + minute dt.

(** The fields a datetime object can hold. *)
Definition valid_datetime (dt : datetime) : Prop :=
  1 <= year dt <= 9999 /\ 1 <= month dt <= 12 /\
  1 <= day dt <= days_in_month (year dt) (month dt) /\
  0 <= hour dt <= 23 /\ 0 <= minute dt <= 59 /\
  0 <= second dt <= 59 /\ 0 <= microsecond dt <= 999999.

(** The arguments of the constructor are read as C ints. *)
Definition fits_c_int (z : Z) : bool := (-2147483648 <=? z) && (z <=? 2147483647).

Definition between (lo hi z : Z) : bool := (lo <=? z) && (z <=? hi).

(** [datetime(year, month, day, hour, minute)]. *)
Definition datetime_new (y mo d h mi : Z) : result datetime :=
  if negb (forallb fits_c_int [y; mo; d; h; mi]) then Raise OverflowError
  else if negb (between 1 9999 y) then Raise ValueError
  else if negb (between 1 12 mo) then Raise ValueError
  else if negb (between 1 (days_in_month y mo) d) then Raise ValueError
  else if negb (between 0 23 h) then Raise ValueError
  else if negb (between 0 59 mi) then Raise ValueError
  else Ok {| year := y; month := mo; day := d; hour := h; minute := mi;
             second := 0; microsecond := 0 |}.

(** Comparison of naive datetimes: field by field. *)
Fixpoint lex_ltb (a b : list Z) : bool :=
  match a, b with
  | x :: a', y :: b' => (x <? y) || ((x =? y) && lex_ltb a' b')
  | _, _ => false
  end.

Definition dt_fields (dt : datetime) : list Z :=
  [year dt; month dt; day dt; hour dt; minute dt; second dt; microsecond dt].

Definition dt_ltb (a b : datetime) : bool := lex_ltb (dt_fields a) (dt_fields b).

(** The day after a date. *)
Definition next_day (ymd : Z * Z * Z) : Z * Z * Z :=
  let '(y, m, d) := ymd in
  if d <? days_in_month y m then (y, m, d + 1)
  else if m <? 12 then (y, m + 1, 1)
  else (y + 1, 1, 1).

(** [dt + timedelta(minutes=n)] for [n >= 0]: the minutes carry into the
    hours and the days; a date past year 9999 is an OverflowError. *)
Definition datetime_add_minutes (dt : datetime) (n : Z) : result datetime :=
  let total := hour dt * 60 + minute dt + n in
  let '(y, m, d) :=
    Nat.iter (Z.to_nat (total / 1440)) next_day (year dt, month dt, day dt) in
  if 9999 <? y then Raise OverflowError
  else Ok {| year := y; month := m; day := d;
             hour := (total mod 1440) / 60; minute := total mod 60;
             second := second dt; microsecond := microsecond dt |}.

(** Decimal digits of a number, zero-padded to [width]. *)
Fixpoint digits_go (fuel : nat) (n : Z) (acc : pystr) : pystr :=
  match fuel with
  | O => acc
  | S f =>
      let acc' := Z.to_N (48 + n mod 10) :: acc in
      if n / 10 =? 0 then acc' else digits_go f (n / 10) acc'
  end.

Definition repeat_cp (c : cp) (n : nat) : pystr := repeat c n.

Definition zpad (width : nat) (n : Z) : pystr :=
  let ds := digits_go (S (Z.to_nat (Z.log2 (Z.max 1 n)))) n [] in
  repeat_cp 48%N (width - length ds) ++ ds.

(** [dt.strftime('%m/%d/%Y %I:%M:%S %p')] in the C locale, the year padded
    to four digits as the C library of macOS prints it. *)
Definition strftime_us (dt : datetime) : pystr :=
  let h12 := if hour dt mod 12 =? 0 then 12 else hour dt mod 12 in
  zpad 2 (month dt) ++ u "/" ++ zpad 2 (day dt) ++ u "/" ++ zpad 4 (year dt)
  ++ u " " ++ zpad 2 h12 ++ u ":" ++ zpad 2 (minute dt) ++ u ":" ++ zpad 2 (second dt)
  ++ u " " ++ (if hour dt <? 12 then u "AM" else u "PM").

(** [datetime.now()]: the next reading of the clock. *)
Definition now (clock : nat -> datetime) : M datetime :=
  fun t => Ok (clock t, S t).

(** ** DDLCGameFetcher *)

Definition FRENCH_MONTHS : gmap pystr Z :=
  list_to_map
    [(u "janvier", 1); (u "février", 2); (u "mars", 3); (u "avril", 4);
     (u "mai", 5); (u "juin", 6); (u "juillet", 7); (u "août", 8);
     (u "septembre", 9); (u "octobre", 10); (u "novembre", 11); (u "décembre", 12)].

(** The patterns of the source. *)
Definition colon : cp := 58%N.
Definition dash : cp := 45%N.

(** [(\d+)\s+(\w+)] *)
Definition date_re : Re.regex :=
  [Re.Open; Re.plus Re.Digit; Re.Close; Re.plus Re.Space;
   Re.Open; Re.plus Re.Word; Re.Close].

(** [(\d+):(\d+)] *)
Definition time_re : Re.regex :=
  [Re.Open; Re.plus Re.Digit; Re.Close; Re.one (Re.Lit colon);
   Re.Open; Re.plus Re.Digit; Re.Close].

(** [\d{4}-\d{2}-\d{2}], and the same in a group. *)
Definition iso_re : Re.regex :=
  [Re.exactly 4 Re.Digit; Re.one (Re.Lit dash); Re.exactly 2 Re.Digit;
   Re.one (Re.Lit dash); Re.exactly 2 Re.Digit].

Definition iso_group_re : Re.regex := [Re.Open] ++ iso_re ++ [Re.Close].

(** [^\d{1,2}:\d{2}$] *)
Definition hhmm_re : Re.regex :=
  [Re.Bol; Re.Rep Re.Digit 1 (Some 2%nat); Re.one (Re.Lit colon);
   Re.exactly 2 Re.Digit; Re.Eol].

(** [(\d{1,2}):(\d{2})] *)
Definition hm_groups_re : Re.regex :=
  [Re.Open; Re.Rep Re.Digit 1 (Some 2%nat); Re.Close; Re.one (Re.Lit colon);
   Re.Open; Re.exactly 2 Re.Digit; Re.Close].

(** [\s*\([^)]*\)] *)
Definition paren_re : Re.regex :=
  [Re.star Re.Space; Re.one (Re.Lit 40%N); Re.star (Re.NotLit 41%N);
   Re.one (Re.Lit 41%N)].

(** [/equipes/] *)
Definition equipes_re : Re.regex := Re.lits (u "/equipes/").

(** A game, the dict built at the end of a row. *)
Record game := {
  title : pystr;
  start : datetime;
  end_ : datetime;
  location : pystr;
  notes : pystr;
  calendar : pystr;
  our_team : pystr;
  opponent : pystr;
  is_home : bool
}.

(** ** The parsed page

    What BeautifulSoup gives for the frame's HTML: text nodes and tags with
    their class list, their href attribute and their children. *)

Inductive node :=
| Text (s : pystr)
| Elem (tag : pystr) (classes : list pystr) (href : option pystr) (children : list node).

(** [tag.descendants], in document order. *)
Fixpoint descendants (n : node) : list node :=
  match n with
  | Text _ => []
  | Elem _ _ _ cs => flat_map (fun c => c :: descendants c) cs
  end.

Definition is_tag (name : pystr) (n : node) : bool :=
  match n with
  | Elem t _ _ _ => bool_decide (t = name)
  | Text _ => false
  end.

(** [tag.get('class', [])] *)
Definition get_class (n : node) : list pystr :=
  match n with
  | Elem _ cls _ _ => cls
  | Text _ => []
  end.

Definition has_class (cls : pystr) (n : node) : bool := bool_decide (cls ∈ get_class n).

Definition get_href (n : node) : option pystr :=
  match n with
  | Elem _ _ h _ => h
  | Text _ => None
  end.

(** [tag.find_all(name)] and [tag.find(name)] *)
Definition find_all (name : pystr) (n : node) : list node :=
  List.filter (is_tag name) (descendants n).

Definition find (name : pystr) (n : node) : option node := head (find_all name n).

(** [tag.find(name, class_=cls)] *)
Definition find_class (name cls : pystr) (n : node) : option node :=
  head (List.filter (fun d => is_tag name d && has_class cls d) (descendants n)).

(** The page as the browser shows it to the fetcher. *)
Record browser := {
  (** [page.wait_for_selector("iframe", timeout=10000)] returns: an iframe
      appeared within the ten seconds. It raises TimeoutError otherwise. *)
  iframe_appears : bool;
  (** [page.query_selector("iframe")]: the element, given by its src. *)
  iframe : option pystr;
  (** [BeautifulSoup(content, 'html.parser')] for the frame's page, after
      the attempt to switch it to the list view. *)
  soup : node
}.

Section Fetcher.
Context {R : Runtime}.

(** The readings [datetime.now()] returns, in the order of the calls. *)
Variable clock : nat -> datetime.

(** The year a date with none belongs to (lines 46-49). *)
Definition infer_year (current_date : datetime) (mo d : Z) : Z :=
  if (mo <? month current_date)
     || ((mo =? month current_date) && (d <? day current_date))
  then year current_date + 1
  else year current_date.

(** [parse_french_date(date_str, time_str, year)]. *)
Definition parse_french_date (date_str time_str : pystr) (yr : option Z)
  : M (option datetime) :=
  match Re.search date_re date_str with
  | None => ret None
  | Some m =>
      d <- lift (py_int (Re.group m 1)) ;;
      let month_name := str_lower (Re.group m 2) in
      match FRENCH_MONTHS !! month_name with
      | None => ret None
      | Some mo =>
          if mo =? 0 then ret None
          else
            y <- match yr with
                 | Some y => ret y
                 | None => current_date <- now clock ;;
                           ret (infer_year current_date mo d)
                 end ;;
            match Re.search time_re time_str with
            | None => ret None
            | Some tm =>
                h <- lift (py_int (Re.group tm 1)) ;;
                mi <- lift (py_int (Re.group tm 2)) ;;
                lift (rcatch [ValueError]
                        (rbind (datetime_new y mo d h mi) (fun dt => Ok (Some dt)))
                        (Ok None))
            end
      end
  end.


(** [tag.get_text(strip=True)]: the text nodes below the tag, each one
    stripped, the empty ones dropped, joined. *)
Definition get_text_strip (n : node) : pystr :=
  concat (List.filter (fun s => negb (bool_decide (s = [])))
            (flat_map (fun d => match d with
                                | Text s => [strip s]
                                | Elem _ _ _ _ => []
                                end) (descendants n))).

(** [l[i]], a negative [i] counting from the end. *)
Definition py_index {A} (l : list A) (i : Z) : result A :=
  let n := Z.of_nat (length l) in
  let j := if i <? 0 then i + n else i in
  if (0 <=? j) && (j <? n)
  then match l !! Z.to_nat j with
       | Some x => Ok x
       | None => Raise IndexError
       end
  else Raise IndexError.

(** [self.team_names], the configured teams. *)
Variable my_teams : list pystr.

(** Lines 123-128: the texts of the links to team pages, the empty ones
    dropped. *)
Definition team_links (row : node) : list node :=
  List.filter (fun a => is_tag (u "a") a
                        && match get_href a with
                           | Some h => bool_decide (is_Some (Re.search equipes_re h))
                           | None => false
                           end)
    (descendants row).

Definition all_teams (row : node) : list pystr :=
  List.filter (fun t => negb (bool_decide (t = [])))
    (map get_text_strip (team_links row)).

(** Lines 130-135: first occurrences, in order. *)
Fixpoint dedup_teams (seen : gset pystr) (teams : list pystr) : list pystr :=
  match teams with
  | [] => []
  | team :: rest =>
      if decide (team ∈ seen) then dedup_teams seen rest
      else team :: dedup_teams ({[team]} ∪ seen) rest
  end.

Definition extract_team_names (row : node) : list pystr :=
  dedup_teams ∅ (all_teams row).

(** Lines 141-150: the first listed team that is configured. *)
Fixpoint match_team_from (team_names : list pystr) (i : nat) (rest : list pystr)
  : result (option (pystr * pystr * bool)) :=
  match rest with
  | [] => Ok None
  | team :: rest' =>
      if decide (team ∈ my_teams)
      then rbind (py_index team_names (1 - Z.of_nat i))
             (fun opp => Ok (Some (team, opp, Nat.eqb i 1)))
      else match_team_from team_names (S i) rest'
  end.

Definition match_team (team_names : list pystr) : result (option (pystr * pystr * bool)) :=
  match_team_from team_names 0 team_names.

(** Lines 155-164. *)
Definition row_category (row : node) : result pystr :=
  match find_class (u "div") (u "cat_name") row with
  | Some cat_name_div =>
      match find (u "span") cat_name_div with
      | Some cat_span =>
          let category_text := get_text_strip cat_span in
          match category_text with
          | [] => Ok (u "Hockey")
          | _ => py_index (split_ws category_text) 0
          end
      | None => Ok (u "Hockey")
      end
  | None => Ok (u "Unknown")
  end.

(** Lines 178-198, the loop over [prev_td]: the first cell whose date text
    holds an ISO date gives the date, which is joined with [time_str]. *)
Fixpoint find_iso_date (tds : list node) : option pystr :=
  match tds with
  | [] => None
  | prev_td :: rest =>
      match find_class (u "div") (u "game_date") prev_td with
      | Some prev_date_div =>
          match Re.search iso_group_re (get_text_strip prev_date_div) with
          | Some date_match => Some (Re.group date_match 1)
          | None => find_iso_date rest
          end
      | None => find_iso_date rest
      end
  end.

Definition absolute_datetime (time_str : pystr) (td_elements : list node)
  : result (option datetime) :=
  match find_iso_date td_elements with
  | None => Ok None
  | Some date_str =>
      rcatch [ValueError; IndexError]
        (let date_parts := split_on dash date_str in
         rbind (rbind (py_index date_parts 0) py_int) (fun y =>
         rbind (rbind (py_index date_parts 1) py_int) (fun mo =>
         rbind (rbind (py_index date_parts 2) py_int) (fun d =>
         match Re.rmatch_ hm_groups_re time_str with
         | Some time_match =>
             rbind (py_int (Re.group time_match 1)) (fun h =>
             rbind (py_int (Re.group time_match 2)) (fun mi =>
             rbind (datetime_new y mo d h mi) (fun dt => Ok (Some dt))))
         | None => Ok None
         end))))
        (Ok None)
  end.

Definition venue_of (n : node) (venue : pystr) : pystr :=
  match find_class (u "div") (u "game_venue") n with
  | Some venue_div => get_text_strip venue_div
  | None => venue
  end.

(** Lines 170-203, the loop over [td]: the first cell whose date text is a
    bare time (and holds no ISO date) ends the loop. *)
Fixpoint scan_cells (td_elements : list node) (tds : list node)
  : result (option datetime * pystr) :=
  match tds with
  | [] => Ok (None, u "TBD")
  | td :: rest =>
      match find_class (u "div") (u "game_date") td with
      | Some date_div =>
          let date_text := get_text_strip date_div in
          if bool_decide (is_Some (Re.search iso_re date_text))
          then scan_cells td_elements rest
          else if bool_decide (is_Some (Re.rmatch_ hhmm_re date_text))
          then rbind (absolute_datetime date_text td_elements)
                 (fun game_datetime => Ok (game_datetime, venue_of td (u "TBD")))
          else scan_cells td_elements rest
      | None => scan_cells td_elements rest
      end
  end.

(** Lines 166-213: the start of the game and its venue. *)
Definition row_datetime_venue (current_date_str : option pystr) (row : node)
  : M (option datetime * pystr) :=
  let td_elements := find_all (u "td") row in
  r <- lift (scan_cells td_elements td_elements) ;;
  let '(game_datetime, venue) := r in
  match game_datetime, current_date_str with
  | None, Some (c :: s) =>
      game_datetime <-
        match find_class (u "div") (u "game_date") row with
        | Some game_date_div =>
            parse_french_date (c :: s) (get_text_strip game_date_div) None
        | None => ret None
        end ;;
      ret (game_datetime, venue_of row venue)
  | _, _ => ret (game_datetime, venue)
  end.

(** Lines 222-233: the calendar and the title a venue gives, if any. *)
Definition route_venue (venue category : pystr) : option (pystr * pystr) :=
  if str_in (u "(St-Aug") venue || str_in (u "(st-aug") (str_lower venue)
  then Some (u "Dek St-Aug", u "game " ++ category)
  else if str_in (u "(Chauveau") venue || str_in (u "(chauveau") (str_lower venue)
  then Some (u "Dek Chauveau", u "game " ++ category)
  else if str_in (u "lévis") (str_lower venue) || str_in (u "levis") (str_lower venue)
  then Some (u "Autre", u "game " ++ category ++ u " Levis")
  else None.

(** Lines 235-240. *)
Definition venue_name_of (venue : pystr) : pystr := strip (Re.sub paren_re [] venue).

Definition newline : pystr := [10%N].

Definition notes_of (is_home : bool) (our_team opponent venue_name : pystr) : pystr :=
  if is_home then opponent ++ u " @ " ++ our_team ++ newline ++ venue_name
  else our_team ++ u " @ " ++ opponent ++ newline ++ venue_name.

(** Lines 120-254: a row that is no date header; the game it gives, if any. *)
Definition process_row (current_date_str : option pystr) (row : node) : M (option game) :=
  if negb (has_class (u "schedule_container") row) then ret None
  else if (length (team_links row) <? 2)%nat then ret None
  else
    let team_names := extract_team_names row in
    if (length team_names <? 2)%nat then ret None
    else
      matched <- lift (match_team team_names) ;;
      match matched with
      | None => ret None
      | Some ([], _, _) => ret None
      | Some (our_team, opponent, is_home) =>
          category <- lift (row_category row) ;;
          r <- row_datetime_venue current_date_str row ;;
          let '(game_datetime, venue) := r in
          match game_datetime with
          | None => ret None
          | Some game_datetime =>
              current <- now clock ;;
              if dt_ltb game_datetime current then ret None
              else
                match route_venue venue category with
                | None => ret None
                | Some (calendar, title) =>
                    let venue_name := venue_name_of venue in
                    let notes := notes_of is_home our_team opponent venue_name in
                    end_ <- lift (datetime_add_minutes game_datetime 50) ;;
                    ret (Some {| title := title; start := game_datetime; end_ := end_;
                                 location := []; notes := notes; calendar := calendar;
                                 our_team := our_team; opponent := opponent;
                                 is_home := is_home |})
                end
          end
      end.

(** Lines 114-254: the loop over the rows of the table. *)
Fixpoint rows_loop (all_rows : list node) (current_date_str : option pystr)
    (games : list game) : M (list game) :=
  match all_rows with
  | [] => ret games
  | row :: rest =>
      match find (u "h2") row with
      | Some date_header => rows_loop rest (Some (get_text_strip date_header)) games
      | None =>
          found <- process_row current_date_str row ;;
          rows_loop rest current_date_str
            (match found with Some g => games ++ [g] | None => games end)
      end
  end.

(** [fetch_games()]; [games] is [self.games] at the call. *)
Definition fetch_games (b : browser) (games : list game) : M (list game) :=
  if negb (iframe_appears b) then lift (Raise TimeoutError)
  else
    match iframe b with
    | None => ret games
    | Some iframe_url =>
        match find_class (u "table") (u "schedule_table") (soup b) with
        | None => ret games
        | Some schedule_table => rows_loop (find_all (u "tr") schedule_table) None games
        end
    end.

End Fetcher.

(** ** The calendar writer

    The state of the Calendar application is the list of events of each
    calendar, by calendar name; an event holds its dates to the second.
    [add_to_calendar] reaches it only through [osascript], to which it hands
    the text of a script in which the calendar name, the date texts, the
    title, the location and the notes are pasted as they are. What the
    application makes of a script is not the fetcher's code: [osascript] is
    a parameter, and gives the state the run leaves with what
    [subprocess.run(..., check=True)] does. *)

Record event := {
  summary : pystr;
  start_date : datetime;
  end_date : datetime;
  ev_location : pystr;
  description : pystr
}.

Inductive run_outcome :=
| Printed (stdout : pystr)   (* exit status 0, with the text it printed *)
| Failed                     (* CalledProcessError: another exit status *)
| Crashed.                   (* any other exception of subprocess.run *)

Definition quote : pystr := [34%N].
Definition nl : pystr := [10%N].
Definition spaces (n : nat) : pystr := repeat 32%N n.

(** [check_script], lines 275-289. *)
Definition check_script (calendar_name start_str title : pystr) : pystr :=
  nl ++ spaces 12 ++ u "tell application " ++ quote ++ u "Calendar" ++ quote
  ++ nl ++ spaces 16 ++ u "tell calendar " ++ quote ++ calendar_name ++ quote
  ++ nl ++ spaces 20 ++ u "set eventExists to false"
  ++ nl ++ spaces 20 ++ u "set checkDate to date " ++ quote ++ start_str ++ quote
  ++ nl ++ spaces 20 ++ u "repeat with evt in (every event whose start date is checkDate)"
  ++ nl ++ spaces 24 ++ u "if summary of evt is " ++ quote ++ title ++ quote ++ u " then"
  ++ nl ++ spaces 28 ++ u "set eventExists to true"
  ++ nl ++ spaces 28 ++ u "exit repeat"
  ++ nl ++ spaces 24 ++ u "end if"
  ++ nl ++ spaces 20 ++ u "end repeat"
  ++ nl ++ spaces 20 ++ u "return eventExists"
  ++ nl ++ spaces 16 ++ u "end tell"
  ++ nl ++ spaces 12 ++ u "end tell"
  ++ nl ++ spaces 12.

(** [add_script], lines 305-311. *)
Definition add_script (calendar_name title start_str end_str location notes : pystr) : pystr :=
  nl ++ spaces 12 ++ u "tell application " ++ quote ++ u "Calendar" ++ quote
  ++ nl ++ spaces 16 ++ u "tell calendar " ++ quote ++ calendar_name ++ quote
  ++ nl ++ spaces 20 ++ u "make new event with properties {summary:" ++ quote ++ title ++ quote
  ++ u ", start date:date " ++ quote ++ start_str ++ quote
  ++ u ", end date:date " ++ quote ++ end_str ++ quote
  ++ u ", location:" ++ quote ++ location ++ quote
  ++ u ", description:" ++ quote ++ notes ++ quote ++ u "}"
  ++ nl ++ spaces 16 ++ u "end tell"
  ++ nl ++ spaces 12 ++ u "end tell"
  ++ nl ++ spaces 12.

(** The two scripts of a game. *)
Definition check_script_of (g : game) : pystr :=
  check_script (calendar g) (strftime_us (start g)) (title g).

Definition add_script_of (g : game) : pystr :=
  add_script (calendar g) (title g) (strftime_us (start g)) (strftime_us (end_ g))
    (location g) (notes g).

Section Writer.
Context {R : Runtime}.

Variable osascript :
  pystr -> gmap pystr (list event) -> run_outcome * gmap pystr (list event).

(** Lines 270-319: the loop over the games, with the two counters. It
    gives the state of the application at the end and the counters, or no
    counters when an exception left the loop. *)
Fixpoint calendar_loop (games : list game) (store : gmap pystr (list event))
    (added_count skipped_count : nat)
  : gmap pystr (list event) * option (nat * nat) :=
  match games with
  | [] => (store, Some (added_count, skipped_count))
  | game :: rest =>
      let add store0 :=
        match osascript (add_script_of game) store0 with
        | (Printed _, store') => calendar_loop rest store' (S added_count) skipped_count
        | (Failed, store') => calendar_loop rest store' added_count skipped_count
        | (Crashed, store') => (store', None)
        end in
      match osascript (check_script_of game) store with
      | (Printed stdout, store1) =>
          if bool_decide (strip stdout = u "true")
          then calendar_loop rest store1 added_count (S skipped_count)
          else add store1
      | (Failed, store1) => add store1
      | (Crashed, store1) => (store1, None)
      end
  end.

(** [add_to_calendar()]. *)
Definition add_to_calendar (games : list game) (store : gmap pystr (list event))
  : gmap pystr (list event) * option (nat * nat) :=
  match games with
  | [] => (store, Some (0%nat, 0%nat))
  | _ => calendar_loop games store 0 0
  end.

End Writer.

(** *** What the scripts are meant to do *)

#[global] Instance datetime_eq_dec : EqDecision datetime.
Proof. solve_decision. Defined.

Definition to_second (dt : datetime) : datetime :=
  {| year := year dt; month := month dt; day := day dt; hour := hour dt;
     minute := minute dt; second := second dt; microsecond := 0 |}.

(** What the check script compares: the start and the title. *)
Definition event_triple (e : event) : datetime * pystr := (start_date e, summary e).
Definition game_triple (g : game) : datetime * pystr := (to_second (start g), title g).

Definition is_event_of (g : game) (e : event) : bool :=
  bool_decide (event_triple e = game_triple g).

(** The event the add script describes. *)
Definition event_of (g : game) : event :=
  {| summary := title g; start_date := to_second (start g);
     end_date := to_second (end_ g); ev_location := location g;
     description := notes g |}.

(** The application answers the scripts of these games as they are meant:
    on a state in which the calendar of the game exists, the check script
    changes nothing and prints "true" (white space aside) exactly when the
    calendar holds an event with the start and the title of the game, and
    the add script puts the event of the game after the events of the
    calendar. *)
Definition calendar_answers {R : Runtime}
    (osascript : pystr -> gmap pystr (list event) -> run_outcome * gmap pystr (list event))
    (games : list game) : Prop :=
  forall g, In g games ->
  forall store events, store !! calendar g = Some events ->
    (exists stdout,
       osascript (check_script_of g) store = (Printed stdout, store)
       /\ (strip stdout = u "true" <-> existsb (is_event_of g) events = true))
    /\ (exists stdout,
          osascript (add_script_of g) store
          = (Printed stdout, <[calendar g := events ++ [event_of g]]> store)).

(** ** Construction

    [__init__] reads the configured teams from the environment;
    [env_team_names] is what [os.getenv('TEAM_NAMES')] returns. *)

Definition comma : cp := 44%N.

Definition fetcher_init {R : Runtime} (env_team_names : option pystr) : result (list pystr) :=
  match env_team_names with
  | None => Raise ValueError
  | Some [] => Raise ValueError
  | Some team_names_str => Ok (map strip (split_on comma team_names_str))
  end.

(** ** The scenarios of the specification *)

Definition mkdt (y mo d h mi s us : Z) : datetime :=
  {| year := y; month := mo; day := d; hour := h; minute := mi;
     second := s; microsecond := us |}.

(** A run on 2024-12-20, and one on 2024-12-01. *)
Definition clock_dec20 : nat -> datetime := fun _ => mkdt 2024 12 20 10 30 15 123.
Definition clock_dec01 : nat -> datetime := fun _ => mkdt 2024 12 1 10 30 15 123.

Definition div_ (cls text : string) : node := Elem (u "div") [u cls] None [Text (u text)].
Definition a_ (hr text : string) : node := Elem (u "a") [] (Some (u hr)) [Text (u text)].
Definition td_ (children : list node) : node := Elem (u "td") [] None children.

(** The row of the end-to-end scenario: an ISO date cell, the two team
    links with the category label, and the cell of the time and venue. *)
Definition scenario_row : node :=
  Elem (u "tr") [u "schedule_container"] None
    [ td_ [div_ "game_date" "2024-12-15"];
      td_ [a_ "/equipes/team-a/" "Team A";
           Elem (u "div") [u "cat_name"] None [Elem (u "span") [] None [Text (u "Hockey")]];
           a_ "/equipes/team-b/" "Team B"];
      td_ [div_ "game_date" "18:00"; div_ "game_venue" "Arena (St-Aug)"] ].

Definition scenario_page : node :=
  Elem (u "[document]") [] None
    [Elem (u "table") [u "schedule_table"] None [scenario_row]].

Definition scenario_browser : browser :=
  {| iframe_appears := true; iframe := Some (u "https://example.org/frame"); soup := scenario_page |}.

Definition scenario_game (our opp : string) (home : bool) (note : string) : game :=
  {| title := u "game Hockey";
     start := mkdt 2024 12 15 18 0 0 0;
     end_ := mkdt 2024 12 15 18 50 0 0;
     location := [];
     notes := u note ++ newline ++ u "Arena";
     calendar := u "Dek St-Aug";
     our_team := u our; opponent := u opp; is_home := home |}.

(** The three calendars. *)
Definition BUCKETS : list pystr := [u "Dek St-Aug"; u "Dek Chauveau"; u "Autre"].

(** A time text of the form H:MM or HH:MM, as the specification words it:
    one or two digits, a colon, two digits, and nothing else. *)
Definition is_h_mm {R : Runtime} (s : pystr) : bool :=
  match s with
  | [h; c; m1; m2] => isdecimal h && (c =? colon)%N && isdecimal m1 && isdecimal m2
  | [h1; h2; c; m1; m2] =>
      isdecimal h1 && isdecimal h2 && (c =? colon)%N && isdecimal m1 && isdecimal m2
  | _ => false
  end.

(** The timestamp a call of [parse_french_date] gives, if it gives one. *)
Definition timestamp_of {A} (r : result (option A * nat)) : option A :=
  match r with
  | Ok (Some dt, _) => Some dt
  | _ => None
  end.

(** A calendar store with the three calendars and no event. *)
Definition empty_store : gmap pystr (list event) :=
  list_to_map (map (fun name => (name, [])) BUCKETS).

(** A script in which a string literal is left open: the number of its
    double quotes is odd. *)
Definition unterminated_string (script : pystr) : bool :=
  Nat.odd (length (List.filter (N.eqb 34%N) script)).

(** A Calendar application for running the scripts here. It refuses a script
    with an unterminated string literal, answers the scripts of the games
    it is told of as they are meant, and refuses every other script. *)
Definition demo_osascript (known : list game) (script : pystr)
    (store : gmap pystr (list event)) : run_outcome * gmap pystr (list event) :=
  if unterminated_string script then (Failed, store)
  else
    match List.find (fun g => bool_decide (script = check_script_of g)) known with
    | Some g =>
        match store !! calendar g with
        | Some events =>
            (Printed ((if existsb (is_event_of g) events then u "true" else u "false") ++ nl),
             store)
        | None => (Failed, store)
        end
    | None =>
        match List.find (fun g => bool_decide (script = add_script_of g)) known with
        | Some g =>
            match store !! calendar g with
            | Some events => (Printed [], <[calendar g := events ++ [event_of g]]> store)
            | None => (Failed, store)
            end
        | None => (Failed, store)
        end
    end.

(** A game whose category, and so whose title, holds a double quote. *)
Definition quoted_game : game :=
  {| title := u "game A" ++ quote ++ u "B";
     start := mkdt 2024 12 15 18 0 0 0;
     end_ := mkdt 2024 12 15 18 50 0 0;
     location := [];
     notes := u "Team A @ Team B" ++ newline ++ u "Arena";
     calendar := u "Dek St-Aug";
     our_team := u "Team A"; opponent := u "Team B"; is_home := false |}.

(** The place of the opponent for a match at place [i] among [n] names:
    what the index [1 - i] denotes. *)
Definition opponent_place (n i : nat) : nat :=
  match i with
  | O => 1
  | S O => 0
  | _ => n + 1 - i
  end.

(** A page whose date header names a day beyond the range of a C int,
    above a game row in the relative encoding. *)
Definition overflow_page : node :=
  Elem (u "[document]") [] None
    [Elem (u "table") [u "schedule_table"] None
       [ Elem (u "tr") [] None [Elem (u "h2") [] None [Text (u "lundi, 99999999999 décembre")]];
         Elem (u "tr") [u "schedule_container"] None
           [ td_ [a_ "/equipes/team-a/" "Team A"; a_ "/equipes/team-b/" "Team B"];
             td_ [div_ "game_date" "18:00"; div_ "game_venue" "Arena (St-Aug)"] ] ]].

Definition overflow_browser : browser :=
  {| iframe_appears := true; iframe := Some (u "https://example.org/frame");
     soup := overflow_page |}.

(** A game row in the relative encoding: the time and the venue, no date. *)
Definition relative_row : node :=
  Elem (u "tr") [u "schedule_container"] None
    [ td_ [a_ "/equipes/team-a/" "Team A"; a_ "/equipes/team-b/" "Team B"];
      td_ [div_ "game_date" "18:00"; div_ "game_venue" "Centre Lévis"] ].

(** The digits of a number below a hundred, and below ten thousand, and
    the hour of the twelve-hour clock. *)
Definition two_digits (n : Z) : pystr := [Z.to_N (48 + n / 10); Z.to_N (48 + n mod 10)].

Definition four_digits (n : Z) : pystr :=
  [Z.to_N (48 + n / 1000); Z.to_N (48 + n / 100 mod 10);
   Z.to_N (48 + n / 10 mod 10); Z.to_N (48 + n mod 10)].

Definition hour12 (h : Z) : Z := if h mod 12 =? 0 then 12 else h mod 12.

(** What holds of a game appended between the clock readings [t] and [t']
    of a loop over [rows]: it lasts fifty minutes, goes to one of the three
    calendars, and comes from a row of [rows] whose start was settled at the
    reading [n]; that reading is the one line 219 takes for the row, and
    the game does not start before it. *)
Definition game_invariant {R : Runtime} (clock : nat -> datetime)
    (my_teams : list pystr) (rows : list node) (t t' : nat) (g : game) : Prop :=
  minute_stamp (end_ g) = minute_stamp (start g) + 50
  /\ second (end_ g) = second (start g)
  /\ microsecond (end_ g) = microsecond (start g)
  /\ calendar g ∈ BUCKETS
  /\ exists row cur t0 venue n,
       In row rows /\ (t <= t0)%nat /\ (n < t')%nat
       /\ row_datetime_venue clock cur row t0 = Ok (Some (start g), venue, n)
       /\ process_row clock my_teams cur row t0 = Ok (Some g, S n)
       /\ dt_ltb (start g) (clock n) = false.

(** A game is present in a state of the application when its calendar holds
    an event with its start and its title. *)
Definition present (store : gmap pystr (list event)) (g : game) : Prop :=
  exists events, store !! calendar g = Some events
                 /\ In (game_triple g) (map event_triple events).

(** * Properties *)

(** ** Dates *)

Lemma between_spec lo hi z : between lo hi z = true <-> lo <= z <= hi.
Proof. unfold between. rewrite andb_true_iff, !Z.leb_le. tauto. Qed.

Lemma datetime_new_ok y mo d h mi dt :
  datetime_new y mo d h mi = Ok dt ->
  dt = mkdt y mo d h mi 0 0 /\ valid_datetime dt.
Proof.
  unfold datetime_new.
  destruct (forallb fits_c_int _); simpl; [|discriminate].
  destruct (between 1 9999 y) eqn:Hy; simpl; [|discriminate].
  destruct (between 1 12 mo) eqn:Hmo; simpl; [|discriminate].
  destruct (between 1 (days_in_month y mo) d) eqn:Hd; simpl; [|discriminate].
  destruct (between 0 23 h) eqn:Hh; simpl; [|discriminate].
  destruct (between 0 59 mi) eqn:Hmi; simpl; [|discriminate].
  intros [= <-]. apply between_spec in Hy, Hmo, Hd, Hh, Hmi.
  split; [reflexivity|]. unfold valid_datetime; simpl. lia.
Qed.

Lemma is_leap_cases y :
  (is_leap y = true /\ (y mod 4 = 0 /\ (y mod 100 <> 0 \/ y mod 400 = 0)))
  \/ (is_leap y = false /\ (y mod 4 <> 0 \/ (y mod 100 = 0 /\ y mod 400 <> 0))).
Proof.
  unfold is_leap.
  destruct (Z.eqb_spec (y mod 4) 0), (Z.eqb_spec (y mod 100) 0),
    (Z.eqb_spec (y mod 400) 0); simpl; lia.
Qed.

Lemma days_before_year_succ y :
  days_before_year (y + 1) = days_before_year y + (if is_leap y then 366 else 365).
Proof.
  unfold days_before_year. replace (y + 1 - 1) with y by lia.
  destruct (is_leap_cases y) as [[-> H]|[-> H]]; cbv zeta;
    Z.to_euclidean_division_equations; lia.
Qed.

Lemma month_cases m :
  1 <= m <= 12 ->
  m = 1 \/ m = 2 \/ m = 3 \/ m = 4 \/ m = 5 \/ m = 6 \/ m = 7 \/ m = 8 \/ m = 9
  \/ m = 10 \/ m = 11 \/ m = 12.
Proof. lia. Qed.

(** The day after a date of the calendar is a date of the calendar, one
    ordinal further. *)
Lemma next_day_ordinal y m d :
  1 <= m <= 12 -> 1 <= d <= days_in_month y m ->
  forall y' m' d', next_day (y, m, d) = (y', m', d') ->
  ymd2ord y' m' d' = ymd2ord y m d + 1
  /\ 1 <= m' <= 12 /\ 1 <= d' <= days_in_month y' m' /\ y <= y' <= y + 1.
Proof.
  intros Hm Hd y' m' d'. unfold next_day.
  destruct (Z.ltb_spec d (days_in_month y m)).
  - intros [= <- <- <-]. unfold ymd2ord. lia.
  - destruct (Z.ltb_spec m 12); intros [= <- <- <-].
    + assert (d = days_in_month y m) as -> by lia.
      unfold ymd2ord, days_before_month, days_in_month in *.
      destruct (is_leap y);
        destruct (month_cases m Hm) as [->|[->|[->|[->|[->|[->|[->|[->|[->|[->|[->| ->]]]]]]]]]]];
        simpl; lia.
    + assert (m = 12) as -> by lia.
      unfold ymd2ord. rewrite days_before_year_succ.
      unfold days_before_month, days_in_month in *.
      destruct (is_leap y), (is_leap (y + 1)); simpl in *; lia.
Qed.

(** Adding fifty minutes moves the minute stamp by fifty and keeps the
    seconds. *)
Lemma datetime_add_50 dt e :
  valid_datetime dt -> datetime_add_minutes dt 50 = Ok e ->
  minute_stamp e = minute_stamp dt + 50
  /\ second e = second dt /\ microsecond e = microsecond dt.
Proof.
  intros (Hy & Hm & Hd & Hh & Hmi & _). unfold datetime_add_minutes.
  set (total := hour dt * 60 + minute dt + 50).
  assert (total / 1440 = 0 \/ total / 1440 = 1) as [Hc|Hc]
    by (subst total; Z.to_euclidean_division_equations; lia).
  - rewrite Hc. change (Z.to_nat 0) with 0%nat. cbn [Nat.iter nat_rect].
    destruct (9999 <? year dt); [discriminate|]. intros [= <-].
    unfold minute_stamp, toordinal; simpl.
    split; [|split; reflexivity].
    subst total. Z.to_euclidean_division_equations; lia.
  - rewrite Hc. change (Z.to_nat 1) with 1%nat. cbn [Nat.iter nat_rect].
    destruct (next_day (year dt, month dt, day dt)) as [[y' m'] d'] eqn:Hn.
    destruct (next_day_ordinal _ _ _ Hm Hd _ _ _ Hn) as (Ho & _).
    destruct (9999 <? y'); [discriminate|]. intros [= <-].
    unfold minute_stamp, toordinal; simpl.
    split; [|split; reflexivity].
    rewrite Ho. subst total. Z.to_euclidean_division_equations; lia.
Qed.

(** ** The monad *)

Lemma bind_Ok {A B} (c : M A) (k : A -> M B) t b t' :
  bind c k t = Ok (b, t') -> exists a t1, c t = Ok (a, t1) /\ k a t1 = Ok (b, t').
Proof.
  unfold bind. destruct (c t) as [[a t1]|e]; [|discriminate]. eauto.
Qed.

Lemma lift_Ok {A} (r : result A) t a t' : lift r t = Ok (a, t') -> r = Ok a /\ t' = t.
Proof. unfold lift. destruct r; [|discriminate]. intros [= -> ->]. auto. Qed.

Lemma ret_Ok {A} (x : A) t a t' : ret x t = Ok (a, t') -> a = x /\ t' = t.
Proof. unfold ret. intros [= -> ->]. auto. Qed.

Lemma now_Ok clock t a t' : now clock t = Ok (a, t') -> a = clock t /\ t' = S t.
Proof. unfold now. intros [= <- <-]. auto. Qed.

Lemma rbind_Ok {A B} (r : result A) (k : A -> result B) b :
  rbind r k = Ok b -> exists a, r = Ok a /\ k a = Ok b.
Proof. destruct r; simpl; [eauto|discriminate]. Qed.

(** Inversion of a computation that returned: binds first, then leaves. *)
Ltac inv_M :=
  repeat match goal with
    | H : bind _ _ _ = Ok (_, _) |- _ =>
        let a := fresh "a" in let t1 := fresh "t" in
        let H1 := fresh "H" in let H2 := fresh "H" in
        apply bind_Ok in H; destruct H as (a & t1 & H1 & H2)
    | H : lift _ _ = Ok (_, _) |- _ =>
        let H1 := fresh "H" in apply lift_Ok in H; destruct H as (H1 & ->)
    | H : ret _ _ = Ok (_, _) |- _ =>
        let H1 := fresh "H" in apply ret_Ok in H; destruct H as (H1 & ->)
    | H : now _ _ = Ok (_, _) |- _ =>
        let H1 := fresh "H" in apply now_Ok in H; destruct H as (H1 & ->)
    | H : rbind _ _ = Ok _ |- _ =>
        let a := fresh "a" in let H1 := fresh "H" in
        apply rbind_Ok in H; destruct H as (a & H1 & H)
    end.

(** ** parse_french_date *)

Section ParseFacts.
Context {R : Runtime}.
Variable clock : nat -> datetime.

(** What a call that gave a timestamp went through. *)
Lemma parse_french_date_Some date_str time_str yr t dt t' :
  parse_french_date clock date_str time_str yr t = Ok (Some dt, t') ->
  valid_datetime dt
  /\ second dt = 0 /\ microsecond dt = 0
  /\ (exists m, Re.search date_re date_str = Some m
                /\ py_int (Re.group m 1) = Ok (day dt)
                /\ FRENCH_MONTHS !! str_lower (Re.group m 2) = Some (month dt))
  /\ (exists tm, Re.search time_re time_str = Some tm
                 /\ py_int (Re.group tm 1) = Ok (hour dt)
                 /\ py_int (Re.group tm 2) = Ok (minute dt))
  /\ match yr with
     | Some y => year dt = y /\ t' = t
     | None => year dt = infer_year (clock t) (month dt) (day dt) /\ t' = S t
     end.
Proof.
  unfold parse_french_date.
  destruct (Re.search date_re date_str) as [m|] eqn:Hm; [|intros H; inv_M; discriminate].
  intros H. inv_M.
  destruct (FRENCH_MONTHS !! _) as [mo|] eqn:Hmo; [|inv_M; discriminate].
  destruct (mo =? 0); [inv_M; discriminate|]. inv_M.
  destruct (Re.search time_re time_str) as [tm|] eqn:Htm; [|inv_M; discriminate].
  inv_M.
  match goal with
  | H : rcatch _ (rbind (datetime_new ?y _ ?d ?h ?mi) _) _ = Ok _ |- _ =>
      rename H into Hnew;
      destruct (datetime_new y mo d h mi) as [dt0|e] eqn:Hdt; simpl in Hnew
  end.
  - injection Hnew as <-. destruct (datetime_new_ok _ _ _ _ _ _ Hdt) as (-> & Hv).
    split; [exact Hv|]. simpl.
    split; [reflexivity|]. split; [reflexivity|].
    split; [eauto|]. split; [eauto|].
    destruct yr as [y|]; inv_M; subst; auto.
  - destruct (exn_eqb e ValueError || false); discriminate.
Qed.

(** A time text in which the pattern of the time finds nothing gives no
    timestamp. *)
Lemma parse_french_date_needs_time date_str time_str yr t :
  Re.search time_re time_str = None ->
  timestamp_of (parse_french_date clock date_str time_str yr t) = None.
Proof.
  intros Hno.
  destruct (parse_french_date clock date_str time_str yr t) as [[[dt|] t']|e] eqn:H;
    try reflexivity.
  apply parse_french_date_Some in H.
  destruct H as (_ & _ & _ & _ & (tm & Htm & _) & _). congruence.
Qed.

End ParseFacts.

(** ** Rows *)

Section RowFacts.
Context {R : Runtime}.
Variable clock : nat -> datetime.
Variable my_teams : list pystr.

(** The team filter on a row of two names. *)
Lemma match_team_pair a b :
  match_team my_teams [a; b] =
    if decide (a ∈ my_teams) then Ok (Some (a, b, false))
    else if decide (b ∈ my_teams) then Ok (Some (b, a, true))
    else Ok None.
Proof.
  unfold match_team; simpl.
  destruct (decide (a ∈ my_teams)); [reflexivity|].
  destruct (decide (b ∈ my_teams)); reflexivity.
Qed.

Lemma absolute_datetime_valid time_str tds dt :
  absolute_datetime time_str tds = Ok (Some dt) -> valid_datetime dt.
Proof.
  unfold absolute_datetime.
  destruct (find_iso_date tds) as [date_str|]; [|discriminate].
  match goal with
  | |- rcatch _ ?body _ = _ -> _ => destruct body as [[dt0|]|e] eqn:Hb
  end; simpl.
  - intros [= <-]. inv_M.
    destruct (Re.rmatch_ hm_groups_re time_str); [|discriminate].
    inv_M. injection Hb as <-.
    match goal with
    | H : datetime_new _ _ _ _ _ = Ok _ |- _ => apply datetime_new_ok in H; tauto
    end.
  - discriminate.
  - destruct (_ || _); discriminate.
Qed.

Lemma scan_cells_valid all_tds tds dt venue :
  scan_cells all_tds tds = Ok (Some dt, venue) -> valid_datetime dt.
Proof.
  induction tds as [|td rest IH]; simpl; [discriminate|].
  destruct (find_class _ _ td) as [date_div|]; [|exact IH].
  destruct (bool_decide (is_Some (Re.search iso_re _))); [exact IH|].
  destruct (bool_decide (is_Some (Re.rmatch_ hhmm_re _))); [|exact IH].
  intros H. inv_M. injection H as -> _.
  eapply absolute_datetime_valid; eassumption.
Qed.

(** The start found for a row is a date of the calendar; finding it reads
    the clock at most once. *)
Lemma row_datetime_venue_valid cur row t dt venue t' :
  row_datetime_venue clock cur row t = Ok (Some dt, venue, t') ->
  valid_datetime dt /\ (t <= t')%nat.
Proof.
  unfold row_datetime_venue. intros H. inv_M.
  destruct a as [[gd|] v].
  - assert (Some dt = Some gd /\ t' = t) as ([= ->] & ->)
      by (destruct cur as [[|c s]|]; inv_M; split; congruence).
    split; [eapply scan_cells_valid; eassumption|lia].
  - destruct cur as [[|c s]|]; inv_M; try discriminate.
    injection H1 as <- _.
    destruct (find_class (u "div") (u "game_date") row); inv_M; [|discriminate].
    match goal with
    | H : parse_french_date _ _ _ None _ = Ok _ |- _ =>
        apply parse_french_date_Some in H;
        destruct H as (Hv & _ & _ & _ & _ & _ & ->)
    end.
    split; [exact Hv|lia].
Qed.

(** What a row that gave a game went through. *)
Lemma process_row_Some cur row t g t' :
  process_row clock my_teams cur row t = Ok (Some g, t') ->
  exists category dt venue t1,
    match_team my_teams (extract_team_names row)
      = Ok (Some (our_team g, opponent g, is_home g))
    /\ row_category row = Ok category
    /\ row_datetime_venue clock cur row t = Ok (Some dt, venue, t1)
    /\ t' = S t1
    /\ dt_ltb dt (clock t1) = false
    /\ route_venue venue category = Some (calendar g, title g)
    /\ start g = dt
    /\ datetime_add_minutes dt 50 = Ok (end_ g)
    /\ location g = []
    /\ notes g = notes_of (is_home g) (our_team g) (opponent g) (venue_name_of venue).
Proof.
  unfold process_row.
  destruct (negb (has_class _ row)); [intros H; inv_M; discriminate|].
  destruct (length (team_links row) <? 2)%nat; [intros H; inv_M; discriminate|].
  destruct (length (extract_team_names row) <? 2)%nat; [intros H; inv_M; discriminate|].
  intros H. inv_M.
  destruct a as [[[our opp] home]|]; [|inv_M; discriminate].
  destruct our as [|c our]; [inv_M; discriminate|].
  inv_M. destruct a0 as [[gd|] venue]; [|inv_M; discriminate].
  inv_M. subst.
  destruct (dt_ltb gd (clock t1)) eqn:Hlt; [inv_M; discriminate|].
  destruct (route_venue venue a) as [[cal ttl]|] eqn:Hroute; [|inv_M; discriminate].
  inv_M.
  match goal with
  | E : Some g = Some _ |- _ => injection E as ->
  end. simpl.
  exists a, gd, venue, t1. repeat split; auto.
Qed.

(** A row of two names neither of which is configured gives no game, and
    reads no clock. *)
Lemma process_row_unmatched cur row t a b :
  extract_team_names row = [a; b] -> a ∉ my_teams -> b ∉ my_teams ->
  process_row clock my_teams cur row t = Ok (None, t).
Proof.
  intros Hn Ha Hb. unfold process_row.
  destruct (negb (has_class _ row)); [reflexivity|].
  destruct (length (team_links row) <? 2)%nat; [reflexivity|].
  rewrite Hn. simpl length. change (2 <? 2)%nat with false. cbv iota.
  rewrite match_team_pair.
  destruct (decide (a ∈ my_teams)); [contradiction|].
  destruct (decide (b ∈ my_teams)); [contradiction|].
  reflexivity.
Qed.

End RowFacts.

(** ** Substrings and lower case *)

Lemma prefix_of_app p s : prefix_of p (p ++ s) = true.
Proof. induction p as [|c p IH]; simpl; [reflexivity|]. rewrite N.eqb_refl. exact IH. Qed.

Lemma prefix_of_inv p s : prefix_of p s = true -> exists y, s = p ++ y.
Proof.
  revert s. induction p as [|c p IH]; intros s; simpl.
  - eauto.
  - destruct s as [|d s]; [discriminate|].
    rewrite andb_true_iff, N.eqb_eq. intros [-> H].
    destruct (IH _ H) as [y ->]. eauto.
Qed.

Lemma str_in_prefix m s : prefix_of m s = true -> str_in m s = true.
Proof. intros H. destruct s; simpl; rewrite H; reflexivity. Qed.

Lemma str_in_app m x y : str_in m (x ++ m ++ y) = true.
Proof.
  induction x as [|c x IH]; simpl.
  - apply str_in_prefix, prefix_of_app.
  - rewrite IH. apply orb_true_r.
Qed.

Lemma str_in_inv m s : str_in m s = true -> exists x y, s = x ++ m ++ y.
Proof.
  induction s as [|c s IH]; simpl.
  - rewrite orb_false_r. intros H. destruct (prefix_of_inv _ _ H) as [y ->].
    exists [], y. reflexivity.
  - rewrite orb_true_iff. intros [H|H].
    + destruct (prefix_of_inv _ _ H) as [y ->]. exists [], y. reflexivity.
    + destruct (IH H) as (x & y & ->). exists (c :: x), y. reflexivity.
Qed.

(** A lower-case ASCII marker is found in the lowered text wherever the
    marker is found in the text in any case. *)
Lemma str_in_lower {R : Runtime} (m s : pystr) :
  lower_keeps_ascii R -> is_ascii m = true ->
  str_in m s = true -> str_in (map ascii_lower_char m) (str_lower s) = true.
Proof.
  intros HL Hm Hin. destruct (str_in_inv _ _ Hin) as (x & y & ->).
  destruct (HL x m y Hm) as (x' & y' & ->). apply str_in_app.
Qed.

Lemma latin1_lower_ascii m :
  is_ascii m = true -> map latin1_lower_char m = map ascii_lower_char m.
Proof.
  induction m as [|c m IH]; simpl; [reflexivity|].
  rewrite andb_true_iff, N.ltb_lt. intros [Hc Hm]. rewrite (IH Hm). f_equal.
  unfold latin1_lower_char, ascii_lower_char, in_range.
  destruct (N.leb_spec 65 c), (N.leb_spec c 90), (N.leb_spec 192 c),
    (N.leb_spec c 214), (N.leb_spec 216 c), (N.leb_spec c 222); simpl; lia.
Qed.

Lemma latin1_lower_keeps_ascii : lower_keeps_ascii cpython_latin1.
Proof.
  intros x m y Hm. exists (map latin1_lower_char x), (map latin1_lower_char y).
  simpl. rewrite !map_app, (latin1_lower_ascii m Hm). reflexivity.
Qed.

(** ** Venues *)

Lemma route_venue_bucket {R : Runtime} venue category cal ttl :
  route_venue venue category = Some (cal, ttl) -> cal ∈ BUCKETS.
Proof.
  unfold route_venue, BUCKETS.
  repeat match goal with
    | |- (if ?c then _ else _) = _ -> _ => destruct c
    end; intros [= <- <-] || discriminate; set_solver.
Qed.

(** ** The loop over the rows *)

Section LoopFacts.
Context {R : Runtime}.
Variable clock : nat -> datetime.
Variable my_teams : list pystr.

Lemma game_invariant_mono rows rows' t1 t2 t3 t4 g :
  (forall row, In row rows -> In row rows') ->
  (t1 <= t2)%nat -> (t3 <= t4)%nat ->
  game_invariant clock my_teams rows t2 t3 g ->
  game_invariant clock my_teams rows' t1 t4 g.
Proof.
  intros Hrows H12 H34
    (He & Hs & Hu & Hc & row & cur & t0 & venue & n & Hin & Ht0 & Hn & Hdv & Hrow & Hlt).
  repeat split; auto. exists row, cur, t0, venue, n.
  repeat split; auto; lia.
Qed.

Lemma process_row_invariant cur row t g t' :
  process_row clock my_teams cur row t = Ok (Some g, t') ->
  game_invariant clock my_teams [row] t t' g /\ (t <= t')%nat.
Proof.
  intros H. pose proof H as Hrow. apply process_row_Some in H.
  destruct H as (category & dt & venue & t1 & _ & _ & Hdv & -> & Hlt & Hroute
                 & Hstart & Hend & _).
  destruct (row_datetime_venue_valid _ _ _ _ _ _ _ Hdv) as (Hv & Hle).
  destruct (datetime_add_50 _ _ Hv Hend) as (Hm & Hs & Hu).
  split; [|lia]. unfold game_invariant. rewrite Hstart.
  repeat split; auto.
  - eapply route_venue_bucket; eassumption.
  - exists row, cur, t, venue, t1.
    split; [left; reflexivity|]. split; [lia|]. split; [lia|]. auto.
Qed.

(** The clock is only ever read forwards. *)
Lemma parse_french_date_clock date_str time_str yr t r t' :
  parse_french_date clock date_str time_str yr t = Ok (r, t') -> (t <= t')%nat.
Proof.
  unfold parse_french_date.
  destruct (Re.search date_re date_str); [|intros H; inv_M; lia].
  intros H. inv_M.
  destruct (FRENCH_MONTHS !! _); [|inv_M; lia].
  destruct (_ =? 0); [inv_M; lia|]. inv_M.
  match goal with
  | H : match yr with _ => _ end t = Ok (_, ?t0) |- _ =>
      assert (t <= t0)%nat by (destruct yr; inv_M; lia)
  end.
  destruct (Re.search time_re time_str); inv_M; lia.
Qed.

Lemma row_datetime_venue_clock cur row t r t' :
  row_datetime_venue clock cur row t = Ok (r, t') -> (t <= t')%nat.
Proof.
  unfold row_datetime_venue. intros H. inv_M.
  destruct a as [[gd|] v]; destruct cur as [[|c s]|]; inv_M; try lia.
  destruct (find_class (u "div") (u "game_date") row); inv_M; try lia.
  match goal with
  | H : parse_french_date _ _ _ _ _ = Ok _ |- _ =>
      apply parse_french_date_clock in H; lia
  end.
Qed.

Lemma process_row_None_clock cur row t t' :
  process_row clock my_teams cur row t = Ok (None, t') -> (t <= t')%nat.
Proof.
  unfold process_row.
  destruct (negb (has_class _ row)); [intros H; inv_M; lia|].
  destruct (length (team_links row) <? 2)%nat; [intros H; inv_M; lia|].
  destruct (length (extract_team_names row) <? 2)%nat; [intros H; inv_M; lia|].
  intros H. inv_M.
  destruct a as [[[our opp] home]|]; [|inv_M; lia].
  destruct our as [|c our]; [inv_M; lia|].
  inv_M.
  match goal with
  | H : row_datetime_venue _ _ _ _ = Ok _ |- _ =>
      apply row_datetime_venue_clock in H
  end.
  destruct a0 as [[gd|] venue]; [|inv_M; lia].
  inv_M. subst.
  destruct (dt_ltb gd (clock _)); [inv_M; lia|].
  destruct (route_venue venue a) as [[cal ttl]|]; inv_M; try lia; discriminate.
Qed.

(** Every game the loop appends satisfies the invariant. *)
Lemma rows_loop_invariant rows : forall cur games t games' t',
  rows_loop clock my_teams rows cur games t = Ok (games', t') ->
  (t <= t')%nat
  /\ exists new, games' = games ++ new
       /\ Forall (game_invariant clock my_teams rows t t') new.
Proof.
  induction rows as [|row rest IH]; intros cur games t games' t'; simpl.
  - intros H. inv_M. subst. split; [lia|]. exists []. rewrite app_nil_r. auto.
  - destruct (find (u "h2") row).
    { intros H. destruct (IH _ _ _ _ _ H) as (Hle & new & -> & Hnew).
      split; [exact Hle|]. exists new. split; [reflexivity|].
      eapply Forall_impl; [exact Hnew|]. intros g' Hg'.
      eapply game_invariant_mono; [| | |exact Hg']; [right; assumption|lia|lia]. }
    intros H. inv_M.
    destruct (IH _ _ _ _ _ H1) as (Hle & new & -> & Hnew).
    destruct a as [g|].
    + destruct (process_row_invariant _ _ _ _ _ H0) as (Hg & Hle0).
      split; [lia|]. exists (g :: new). rewrite <- app_assoc. split; [reflexivity|].
      constructor.
      * eapply game_invariant_mono; [| | |exact Hg]; [|lia|lia].
        intros row' [<-|[]]. left; reflexivity.
      * eapply Forall_impl; [exact Hnew|]. intros g' Hg'.
        eapply game_invariant_mono; [| | |exact Hg']; [right; assumption|lia|lia].
    + pose proof (process_row_None_clock _ _ _ _ H0) as Hle0.
      split; [lia|]. exists new. split; [reflexivity|].
      eapply Forall_impl; [exact Hnew|]. intros g' Hg'.
      eapply game_invariant_mono; [| | |exact Hg']; [right; assumption|lia|lia].
Qed.

End LoopFacts.

(** ** The calendar writer *)

Lemma existsb_is_event_of g events :
  existsb (is_event_of g) events = true <-> In (game_triple g) (map event_triple events).
Proof.
  unfold is_event_of. rewrite existsb_exists, in_map_iff. split.
  - intros (e & He & Hk). apply bool_decide_eq_true in Hk. eauto.
  - intros (e & Hk & He). exists e. split; [exact He|]. apply bool_decide_eq_true. exact Hk.
Qed.

(** One event per start and title: a pair that is there is there once. *)
Lemma filter_triple_once g events :
  NoDup (map event_triple events) -> In (game_triple g) (map event_triple events) ->
  length (List.filter (is_event_of g) events) = 1%nat.
Proof.
  unfold is_event_of. generalize (game_triple g). intros k.
  induction events as [|e events IH]; simpl; [tauto|].
  rewrite NoDup_cons, list_elem_of_In. intros [Hnot Hnd] [Hk|Hk].
  - rewrite bool_decide_eq_true_2 by exact Hk. simpl. f_equal.
    rewrite <- Hk in *.
    assert (List.filter (fun e0 => bool_decide (event_triple e0 = event_triple e)) events = [])
      as ->; [|reflexivity].
    clear - Hnot. induction events as [|e' events IH]; simpl; [reflexivity|].
    simpl in Hnot. rewrite bool_decide_eq_false_2 by (intros E; apply Hnot; auto).
    apply IH. tauto.
  - rewrite bool_decide_eq_false_2; [exact (IH Hnd Hk)|].
    intros E. apply Hnot. rewrite E. exact Hk.
Qed.

Lemma present_insert store cal events e g :
  store !! cal = Some events -> present store g ->
  present (<[cal := events ++ [e]]> store) g.
Proof.
  intros Hs (ev' & Hg & Hin). unfold present.
  destruct (decide (cal = calendar g)) as [->|Hne].
  - rewrite lookup_insert_eq. exists (events ++ [e]). split; [reflexivity|].
    rewrite Hs in Hg. injection Hg as <-.
    rewrite map_app, in_app_iff. auto.
  - rewrite lookup_insert_ne by exact Hne. eauto.
Qed.

Section WriterFacts.
Context {R : Runtime}.
Variable osascript :
  pystr -> gmap pystr (list event) -> run_outcome * gmap pystr (list event).
Variable games : list game.
Hypothesis Hanswers : calendar_answers osascript games.

(** One turn of the loop, for a game whose scripts are answered as meant. *)
Lemma calendar_loop_step g rest store events added skipped :
  In g games -> store !! calendar g = Some events ->
  calendar_loop osascript (g :: rest) store added skipped
  = if existsb (is_event_of g) events
    then calendar_loop osascript rest store added (S skipped)
    else calendar_loop osascript rest (<[calendar g := events ++ [event_of g]]> store)
           (S added) skipped.
Proof using Hanswers.
  intros Hg Hs. destruct (Hanswers g Hg store events Hs)
    as ((out & Hchk & Htrue) & (out' & Hadd)).
  cbn [calendar_loop]. rewrite Hchk.
  destruct (existsb (is_event_of g) events).
  - rewrite bool_decide_eq_true_2 by (apply Htrue; reflexivity). reflexivity.
  - rewrite bool_decide_eq_false_2 by (intros E; apply Htrue in E; discriminate).
    rewrite Hadd. reflexivity.
Qed.

(** What the loop does to a state in which every game has its calendar. *)
Lemma calendar_loop_spec l : forall store added skipped,
  (forall g, In g l -> In g games) ->
  (forall g, In g l -> is_Some (store !! calendar g)) ->
  exists store' added' skipped',
    calendar_loop osascript l store added skipped = (store', Some (added', skipped'))
    /\ (added' + skipped' = added + skipped + length l)%nat
    /\ (forall cal, is_Some (store !! cal) -> is_Some (store' !! cal))
    /\ (forall g, present store g -> present store' g)
    /\ (forall g, In g l -> present store' g)
    /\ (forall cal events events', store !! cal = Some events ->
          store' !! cal = Some events' ->
          NoDup (map event_triple events) -> NoDup (map event_triple events'))
    /\ (forall cal events', store' !! cal = Some events' ->
          exists events new, store !! cal = Some events /\ events' = events ++ new
            /\ forall e, In e new ->
                 exists g, In g l /\ calendar g = cal /\ e = event_of g).
Proof using Hanswers.
  induction l as [|g l IH]; intros store added skipped Hsub Hcal.
  - exists store, added, skipped. simpl.
    split; [reflexivity|]. split; [lia|]. split; [auto|]. split; [auto|].
    split; [intros g []|]. split; [intros cal events events' H1 H2; congruence|].
    intros cal events' H. exists events', []. rewrite app_nil_r.
    repeat split; auto. intros e [].
  - destruct (Hcal g (or_introl eq_refl)) as [events Hs].
    rewrite (calendar_loop_step g l store events added skipped
               (Hsub g (or_introl eq_refl)) Hs).
    destruct (existsb (is_event_of g) events) eqn:Hex.
    + (* the game is already there *)
      apply existsb_is_event_of in Hex.
      destruct (IH store added (S skipped)) as (s' & a' & k' & -> & Hn & Hd & Hp & Hg & Hu & Hev).
      { intros g' Hg'. apply Hsub. right. exact Hg'. }
      { intros g' Hg'. apply Hcal. right. exact Hg'. }
      exists s', a', k'. split; [reflexivity|]. split; [simpl; lia|].
      split; [exact Hd|]. split; [exact Hp|].
      split; [intros g' [<-|Hg']; [apply Hp; exists events; auto|auto]|].
      split; [exact Hu|].
      intros cal events' H. destruct (Hev _ _ H) as (evs & new & Hl & -> & Hnew).
      exists evs, new. repeat split; auto.
      intros e He. destruct (Hnew e He) as (g' & Hg' & Hc & Hk). exists g'. simpl. auto.
    + (* the game is added *)
      assert (~ In (game_triple g) (map event_triple events)) as Hfresh.
      { intros Hin. apply existsb_is_event_of in Hin. congruence. }
      destruct (IH (<[calendar g := events ++ [event_of g]]> store) (S added) skipped)
        as (s' & a' & k' & -> & Hn & Hd & Hp & Hg & Hu & Hev).
      { intros g' Hg'. apply Hsub. right. exact Hg'. }
      { intros g' Hg'. destruct (decide (calendar g = calendar g')) as [E|E].
        - rewrite <- E, lookup_insert_eq. eauto.
        - rewrite lookup_insert_ne by exact E. apply Hcal. right. exact Hg'. }
      exists s', a', k'. split; [reflexivity|]. split; [simpl; lia|].
      split.
      { intros cal Hc. apply Hd. destruct (decide (calendar g = cal)) as [<-|E].
        - rewrite lookup_insert_eq. eauto.
        - rewrite lookup_insert_ne by exact E. exact Hc. }
      split; [intros g' Hg'; apply Hp, present_insert; assumption|].
      split.
      { intros g' [<-|Hg']; [|auto]. apply Hp. unfold present.
        rewrite lookup_insert_eq. eexists. split; [reflexivity|].
        rewrite map_app, in_app_iff. right. simpl. auto. }
      split.
      { intros cal evs evs' Hl Hl' Hnd.
        destruct (decide (calendar g = cal)) as [<-|E].
        - rewrite Hs in Hl. injection Hl as <-.
          apply (Hu (calendar g) (events ++ [event_of g]) evs');
            [apply lookup_insert_eq|exact Hl'|].
          rewrite map_app. simpl. apply NoDup_app.
          split; [exact Hnd|]. split; [|apply NoDup_singleton].
          intros x Hx Hx'. apply list_elem_of_In in Hx. apply list_elem_of_In in Hx'.
          destruct Hx' as [<-|[]]. apply Hfresh. exact Hx.
        - apply (Hu cal evs evs'); [|exact Hl'|exact Hnd].
          rewrite lookup_insert_ne by exact E. exact Hl. }
      intros cal events' H. destruct (Hev _ _ H) as (evs & new & Hl & -> & Hnew).
      destruct (decide (calendar g = cal)) as [<-|E].
      * rewrite lookup_insert_eq in Hl. injection Hl as <-.
        exists events, (event_of g :: new). rewrite <- app_assoc. repeat split; auto.
        intros e' [<-|He'].
        -- exists g. simpl. auto.
        -- destruct (Hnew e' He') as (g' & Hg' & Hc & Hk'). exists g'. simpl. auto.
      * rewrite lookup_insert_ne in Hl by exact E.
        exists evs, new. repeat split; auto.
        intros e' He'. destruct (Hnew e' He') as (g' & Hg' & Hc & Hk'). exists g'. simpl. auto.
Qed.

(** A state in which every game is present is left as it is. *)
Lemma calendar_loop_present l : forall store added skipped,
  (forall g, In g l -> In g games) ->
  (forall g, In g l -> present store g) ->
  calendar_loop osascript l store added skipped
  = (store, Some (added, (skipped + length l)%nat)).
Proof using Hanswers.
  induction l as [|g l IH]; intros store added skipped Hsub Hp.
  - simpl. do 3 f_equal. lia.
  - destruct (Hp g (or_introl eq_refl)) as (events & Hs & Hin).
    rewrite (calendar_loop_step g l store events added skipped
               (Hsub g (or_introl eq_refl)) Hs).
    rewrite (proj2 (existsb_is_event_of g events) Hin).
    rewrite IH; [do 3 f_equal; simpl; lia| |].
    + intros g' Hg'. apply Hsub. right. exact Hg'.
    + intros g' Hg'. apply Hp. right. exact Hg'.
Qed.

End WriterFacts.

Lemma add_to_calendar_loop {R : Runtime} osascript games store :
  add_to_calendar osascript games store = calendar_loop osascript games store 0 0.
Proof. destruct games; reflexivity. Qed.

(** * The claims *)

(** C1: when [parse_french_date] is given no year and resolves a day number
    and a recognized month name to a timestamp, the year of the timestamp is
    the current year, plus one exactly when the parsed month is before the
    current month, or is the current month with the parsed day before
    today's day. *)
Theorem C1_year_inferred {R : Runtime} (clock : nat -> datetime)
    (date_str time_str : pystr) (t : nat) (dt : datetime) (t' : nat) :
  parse_french_date clock date_str time_str None t = Ok (Some dt, t') ->
  year dt = year (clock t)
            + (if (month dt <? month (clock t))
                  || ((month dt =? month (clock t)) && (day dt <? day (clock t)))
               then 1 else 0).
Proof.
  intros H. apply parse_french_date_Some in H.
  destruct H as (_ & _ & _ & _ & _ & -> & _). unfold infer_year.
  destruct (_ || _); lia.
Qed.

(** C1, the scenario: day 15 of "décembre", read on 2024-12-20, is in 2025. *)
Lemma C1_december_15_read_on_december_20 :
  parse_french_date (R := cpython_latin1) clock_dec20
    (u "lundi, 15 décembre") (u "18:00") None 0%nat
  = Ok (Some (mkdt 2025 12 15 18 0 0 0), 1%nat)
  /\ year (mkdt 2025 12 15 18 0 0 0) = 2025.
Proof.
  split; [vm_compute; reflexivity|].
  exact (C1_year_inferred (R := cpython_latin1) clock_dec20
           (u "lundi, 15 décembre") (u "18:00") 0%nat
           (mkdt 2025 12 15 18 0 0 0) 1%nat
           ltac:(vm_compute; reflexivity)).
Defined.

(** C2, as the code has it: a row of two extracted team names is kept only
    when at least one of them is configured; when neither is, the row is
    discarded and gives no game; when the first listed name is configured
    the team filter keeps the row whether or not the second is. *)
Theorem C2_team_filter {R : Runtime} (clock : nat -> datetime) (my_teams : list pystr)
    (cur : option pystr) (row : node) (a b : pystr) (t : nat) :
  extract_team_names row = [a; b] ->
  (a ∉ my_teams -> b ∉ my_teams ->
     process_row clock my_teams cur row t = Ok (None, t))
  /\ (forall g t', process_row clock my_teams cur row t = Ok (Some g, t') ->
        a ∈ my_teams \/ b ∈ my_teams)
  /\ (a ∈ my_teams -> match_team my_teams [a; b] = Ok (Some (a, b, false))).
Proof.
  intros Hn. split; [|split].
  - intros Ha Hb. eapply process_row_unmatched; eassumption.
  - intros g t' H.
    destruct (decide (a ∈ my_teams)) as [Ha|Ha]; [auto|].
    destruct (decide (b ∈ my_teams)) as [Hb|Hb]; [auto|].
    rewrite (process_row_unmatched clock my_teams cur row t a b Hn Ha Hb) in H.
    discriminate.
  - intros Ha. rewrite match_team_pair.
    destruct (decide (a ∈ my_teams)); [reflexivity|contradiction].
Qed.

(** C2, as stated, fails: both names of the scenario's row configured, the
    row still gives a game. *)
Lemma C2_both_configured_row_kept :
  extract_team_names (R := cpython_latin1) scenario_row = [u "Team A"; u "Team B"]
  /\ u "Team A" <> u "Team B"
  /\ u "Team A" ∈ [u "Team A"; u "Team B"]
  /\ u "Team B" ∈ [u "Team A"; u "Team B"]
  /\ process_row (R := cpython_latin1) clock_dec01 [u "Team A"; u "Team B"] None
       scenario_row 0%nat
     = Ok (Some (scenario_game "Team A" "Team B" false "Team A @ Team B"), 1%nat).
Proof.
  split; [vm_compute; reflexivity|].
  split; [discriminate|].
  split; [set_solver|]. split; [set_solver|].
  vm_compute. reflexivity.
Qed.

(** C2, a row whose two names are not configured. *)
Lemma C2_unconfigured_row_discarded :
  process_row (R := cpython_latin1) clock_dec01 [u "Team C"] None scenario_row 0%nat
  = Ok (None, 0%nat).
Proof.
  refine (proj1 (C2_team_filter (R := cpython_latin1) clock_dec01 [u "Team C"] None
                   scenario_row (u "Team A") (u "Team B") 0%nat
                   ltac:(vm_compute; reflexivity)) _ _);
    intros H; apply list_elem_of_In in H; destruct H as [H|[]]; discriminate H.
Defined.

(** C3: the end-to-end scenario. Run before the game starts, the row with
    the cells "2024-12-15" and "18:00", the teams "Team A" and "Team B" of
    which "Team A" is configured, the label "Hockey" and the venue
    "Arena (St-Aug)" gives exactly one game, with the fields listed. *)
Theorem C3_end_to_end (clock : nat -> datetime) :
  dt_ltb (mkdt 2024 12 15 18 0 0 0) (clock 0%nat) = false ->
  fetch_games (R := cpython_latin1) clock [u "Team A"] scenario_browser [] 0%nat
  = Ok ([ {| title := u "game Hockey";
             start := mkdt 2024 12 15 18 0 0 0;
             end_ := mkdt 2024 12 15 18 50 0 0;
             location := [];
             notes := u "Team A @ Team B" ++ [10%N] ++ u "Arena";
             calendar := u "Dek St-Aug";
             our_team := u "Team A";
             opponent := u "Team B";
             is_home := false |} ], 1%nat).
Proof.
  intros H. vm_compute in H. vm_compute. rewrite H. reflexivity.
Qed.

(** C3, run on 2024-12-01. *)
Lemma C3_run_on_december_1 :
  fetch_games (R := cpython_latin1) clock_dec01 [u "Team A"] scenario_browser [] 0%nat
  = Ok ([scenario_game "Team A" "Team B" false "Team A @ Team B"], 1%nat).
Proof.
  exact (C3_end_to_end clock_dec01 ltac:(vm_compute; reflexivity)).
Defined.

(** C4, as the code has it: [parse_french_date] looks in the time text for
    one or more digits, a colon and one or more digits, anywhere in the
    text; a time text in which this pattern finds nothing gives no
    timestamp. *)
Theorem C4_time_pattern_required {R : Runtime} (clock : nat -> datetime)
    (date_str time_str : pystr) (yr : option Z) (t : nat) :
  Re.search time_re time_str = None ->
  timestamp_of (parse_french_date clock date_str time_str yr t) = None.
Proof. apply parse_french_date_needs_time. Qed.

(** C4, as stated, fails: "18:5" is not of the form H:MM or HH:MM, and
    gives a timestamp. *)
Lemma C4_time_18_5_accepted :
  is_h_mm (R := cpython_latin1) (u "18:5") = false
  /\ parse_french_date (R := cpython_latin1) clock_dec20
       (u "lundi, 15 décembre") (u "18:5") None 0%nat
     = Ok (Some (mkdt 2025 12 15 18 5 0 0), 1%nat).
Proof. split; vm_compute; reflexivity. Qed.

(** C4, a time text without a colon. *)
Lemma C4_time_1800_rejected :
  Re.search (R := cpython_latin1) time_re (u "1800") = None
  /\ timestamp_of (parse_french_date (R := cpython_latin1) clock_dec20
                     (u "lundi, 15 décembre") (u "1800") None 0%nat) = None.
Proof.
  split; [vm_compute; reflexivity|].
  exact (C4_time_pattern_required (R := cpython_latin1) clock_dec20
           (u "lundi, 15 décembre") (u "1800") None 0%nat
           ltac:(vm_compute; reflexivity)).
Defined.

(** C5, where the code departs from it: a day of the month that is no date
    of the calendar gives no result, as claimed (day 31 of "novembre"); a
    day number beyond the range of a C int makes the constructor raise
    OverflowError, which the handler for ValueError lets through to the
    caller. *)
Theorem C5_overflow_reaches_caller :
  parse_french_date (R := cpython_latin1) clock_dec20
    (u "31 novembre") (u "18:00") None 0%nat = Ok (None, 1%nat)
  /\ parse_french_date (R := cpython_latin1) clock_dec20
       (u "99999999999 décembre") (u "18:00") None 0%nat = Raise OverflowError.
Proof. split; vm_compute; reflexivity. Qed.

(** C6: venue routing is a substring match on the lowered venue text, in
    priority order: "(st-aug" gives "Dek St-Aug" and "game {category}";
    otherwise "(chauveau" gives "Dek Chauveau" and the same title; otherwise
    "lévis" or "levis" gives "Autre" and "game {category} Levis"; otherwise
    there is no route. A row gives a game only through a route of its
    venue, whose calendar and title the game carries. *)
Theorem C6_venue_routing {R : Runtime} (HL : lower_keeps_ascii R)
    (venue category : pystr) :
  route_venue venue category =
    (if str_in (u "(st-aug") (str_lower venue)
     then Some (u "Dek St-Aug", u "game " ++ category)
     else if str_in (u "(chauveau") (str_lower venue)
     then Some (u "Dek Chauveau", u "game " ++ category)
     else if str_in (u "lévis") (str_lower venue) || str_in (u "levis") (str_lower venue)
     then Some (u "Autre", u "game " ++ category ++ u " Levis")
     else None)
  /\ forall clock my_teams cur row t g t',
       process_row clock my_teams cur row t = Ok (Some g, t') ->
       exists cat ven t1,
         row_category row = Ok cat
         /\ row_datetime_venue clock cur row t = Ok (Some (start g), ven, t1)
         /\ route_venue ven cat = Some (calendar g, title g).
Proof.
  split.
  - unfold route_venue.
    assert (forall m, is_ascii m = true -> str_in m venue = true ->
                      str_in (map ascii_lower_char m) (str_lower venue) = true) as Hlow
      by (intros m Hm Hin; apply str_in_lower; assumption).
    destruct (str_in (u "(St-Aug") venue) eqn:E1.
    + apply (Hlow (u "(St-Aug") eq_refl) in E1.
      change (map ascii_lower_char (u "(St-Aug")) with (u "(st-aug") in E1.
      rewrite E1. rewrite orb_true_r. reflexivity.
    + rewrite orb_false_l.
      destruct (str_in (u "(st-aug") (str_lower venue)); [reflexivity|].
      destruct (str_in (u "(Chauveau") venue) eqn:E2.
      * apply (Hlow (u "(Chauveau") eq_refl) in E2.
        change (map ascii_lower_char (u "(Chauveau")) with (u "(chauveau") in E2.
        rewrite E2. rewrite orb_true_r. reflexivity.
      * rewrite orb_false_l. reflexivity.
  - intros clock my_teams cur row t g t' H. apply process_row_Some in H.
    destruct H as (cat & dt & ven & t1 & _ & Hc & Hdv & _ & _ & Hr & <- & _).
    exists cat, ven, t1. auto.
Qed.

(** C6, the scenario: "Centre Lévis" goes to "Autre", titled
    "game {category} Levis". *)
Lemma C6_centre_levis :
  route_venue (R := cpython_latin1) (u "Centre Lévis") (u "Hockey")
  = Some (u "Autre", u "game Hockey Levis").
Proof.
  rewrite (proj1 (C6_venue_routing (R := cpython_latin1) latin1_lower_keeps_ascii
                    (u "Centre Lévis") (u "Hockey"))).
  vm_compute. reflexivity.
Defined.

(** C7: for a row of two extracted team names of which exactly one is
    configured, the game has the configured name as [our_team], the other
    as [opponent], and is a home game exactly when the configured name is
    the second listed. *)
Theorem C7_matched_team {R : Runtime} (clock : nat -> datetime) (my_teams : list pystr)
    (cur : option pystr) (row : node) (a b : pystr) (t : nat) (g : game) (t' : nat) :
  extract_team_names row = [a; b] ->
  (a ∈ my_teams /\ b ∉ my_teams) \/ ((a ∉ my_teams) /\ b ∈ my_teams) ->
  process_row clock my_teams cur row t = Ok (Some g, t') ->
  (a ∈ my_teams -> our_team g = a /\ opponent g = b /\ is_home g = false)
  /\ (b ∈ my_teams -> our_team g = b /\ opponent g = a /\ is_home g = true).
Proof.
  intros Hn Hone H. apply process_row_Some in H.
  destruct H as (_ & _ & _ & _ & Hm & _). rewrite Hn, match_team_pair in Hm.
  destruct Hone as [[Ha Hb]|[Ha Hb]].
  - destruct (decide (a ∈ my_teams)); [|contradiction].
    injection Hm as <- <- <-. split; [auto|]. intros; contradiction.
  - destruct (decide (a ∈ my_teams)); [contradiction|].
    destruct (decide (b ∈ my_teams)); [|contradiction].
    injection Hm as <- <- <-. split; [intros; contradiction|auto].
Qed.

(** C7, the scenario's row with only "Team B" configured: a home game. *)
Lemma C7_second_listed_is_home :
  process_row (R := cpython_latin1) clock_dec01 [u "Team B"] None scenario_row 0%nat
  = Ok (Some (scenario_game "Team B" "Team A" true "Team A @ Team B"), 1%nat)
  /\ our_team (scenario_game "Team B" "Team A" true "Team A @ Team B") = u "Team B"
  /\ opponent (scenario_game "Team B" "Team A" true "Team A @ Team B") = u "Team A"
  /\ is_home (scenario_game "Team B" "Team A" true "Team A @ Team B") = true.
Proof.
  split; [vm_compute; reflexivity|].
  refine (proj2 (C7_matched_team (R := cpython_latin1) clock_dec01 [u "Team B"] None
                   scenario_row (u "Team A") (u "Team B") 0%nat
                   (scenario_game "Team B" "Team A" true "Team A @ Team B") 1%nat
                   ltac:(vm_compute; reflexivity) (or_intror (conj _ _))
                   ltac:(vm_compute; reflexivity)) _).
  - intros H. apply list_elem_of_In in H. destruct H as [H|[]]. discriminate H.
  - apply list_elem_of_In. left. reflexivity.
  - apply list_elem_of_In. left. reflexivity.
Defined.

(** C8, where the code departs from it: when no iframe appears within the
    wait, [wait_for_selector] raises TimeoutError; [fetch_games] has no
    handler for it and returns no list. *)
Theorem C8_frame_timeout_raises {R : Runtime} (clock : nat -> datetime)
    (my_teams : list pystr) (frame : option pystr) (page : node)
    (games : list game) (t : nat) :
  fetch_games clock my_teams
    {| iframe_appears := false; iframe := frame; soup := page |} games t
  = Raise TimeoutError.
Proof. reflexivity. Qed.



Lemma scenario_scripts_wellformed :
  unterminated_string
    (check_script_of (scenario_game "Team A" "Team B" false "Team A @ Team B")) = false
  /\ unterminated_string
       (add_script_of (scenario_game "Team A" "Team B" false "Team A @ Team B")) = false
  /\ add_script_of (scenario_game "Team A" "Team B" false "Team A @ Team B")
     <> check_script_of (scenario_game "Team A" "Team B" false "Team A @ Team B").
Proof.
  split; [vm_compute; reflexivity|]. split; [vm_compute; reflexivity|].
  intros E. apply (f_equal (@length cp)) in E. vm_compute in E. discriminate E.
Qed.

(** The application of the scenarios answers the scripts of the scenario's
    game as they are meant. *)
Lemma demo_osascript_answers :
  calendar_answers (R := cpython_latin1)
    (demo_osascript [scenario_game "Team A" "Team B" false "Team A @ Team B"])
    [scenario_game "Team A" "Team B" false "Team A @ Team B";
     scenario_game "Team A" "Team B" false "Team A @ Team B"].
Proof.
  destruct scenario_scripts_wellformed as (Hc & Ha & Hne).
  set (sg := scenario_game "Team A" "Team B" false "Team A @ Team B") in *.
  intros g Hg store events Hs.
  assert (g = sg) as -> by (destruct Hg as [<-|[<-|[]]]; reflexivity).
  split.
  - eexists. unfold demo_osascript. rewrite Hc. cbn [List.find].
    rewrite bool_decide_eq_true_2 by reflexivity. rewrite Hs.
    split; [reflexivity|].
    destruct (existsb (is_event_of sg) events); split; intros E;
      try reflexivity; vm_compute in E; discriminate E.
  - eexists. unfold demo_osascript. rewrite Ha. cbn [List.find].
    rewrite bool_decide_eq_false_2 by exact Hne.
    rewrite bool_decide_eq_true_2 by reflexivity. rewrite Hs. reflexivity.
Qed.


(** C10: every game that [fetch_games] appends to the list lasts exactly
    fifty minutes, goes to one of the three calendars "Dek St-Aug",
    "Dek Chauveau" and "Autre", and comes from a row of the schedule table
    whose start was settled at a reading [n] of the clock: the filter of
    past games of that row (line 219) reads the clock at [n], the row ends
    at [S n] with the game, and the game does not start before that
    reading. *)
Theorem C10_game_invariant {R : Runtime} (clock : nat -> datetime)
    (my_teams : list pystr) (b : browser) (games0 : list game) (t : nat)
    (games : list game) (t' : nat) :
  fetch_games clock my_teams b games0 t = Ok (games, t') ->
  exists new, games = games0 ++ new
    /\ Forall (fun g =>
         minute_stamp (end_ g) = minute_stamp (start g) + 50
         /\ second (end_ g) = second (start g)
         /\ microsecond (end_ g) = microsecond (start g)
         /\ calendar g ∈ [u "Dek St-Aug"; u "Dek Chauveau"; u "Autre"]
         /\ exists schedule_table row cur t0 venue n,
              find_class (u "table") (u "schedule_table") (soup b) = Some schedule_table
              /\ In row (find_all (u "tr") schedule_table)
              /\ (t <= t0)%nat /\ (n < t')%nat
              /\ row_datetime_venue clock cur row t0 = Ok (Some (start g), venue, n)
              /\ process_row clock my_teams cur row t0 = Ok (Some g, S n)
              /\ now clock n = Ok (clock n, S n)
              /\ dt_ltb (start g) (clock n) = false) new.
Proof.
  unfold fetch_games.
  destruct (negb (iframe_appears b)); [discriminate|].
  assert (forall P t0, ret games0 t0 = Ok (games, t') ->
            exists new, games = games0 ++ new /\ Forall P new) as Hret.
  { intros P t0 H. inv_M. subst. exists []. rewrite app_nil_r. auto. }
  destruct (iframe b); [|apply Hret].
  destruct (find_class _ _ (soup b)) as [schedule_table|]; [|apply Hret].
  intros H. apply rows_loop_invariant in H.
  destruct H as (_ & new & -> & Hnew). exists new. split; [reflexivity|].
  eapply Forall_impl; [exact Hnew|].
  intros g (He & Hs & Hu & Hc & row & cur & t0 & venue & n & Hin & Ht0 & Hn & Hdv & Hrow & Hlt).
  repeat split; auto.
  exists schedule_table, row, cur, t0, venue, n. repeat split; auto.
Qed.

(** C10, the run of the end-to-end scenario. *)
Lemma C10_scenario_game_invariant :
  exists new,
    [scenario_game "Team A" "Team B" false "Team A @ Team B"] = [] ++ new
    /\ Forall (fun g =>
         minute_stamp (end_ g) = minute_stamp (start g) + 50
         /\ second (end_ g) = second (start g)
         /\ microsecond (end_ g) = microsecond (start g)
         /\ calendar g ∈ [u "Dek St-Aug"; u "Dek Chauveau"; u "Autre"]
         /\ exists schedule_table row cur t0 venue n,
              find_class (u "table") (u "schedule_table") (soup scenario_browser)
                = Some schedule_table
              /\ In row (find_all (u "tr") schedule_table)
              /\ (0 <= t0)%nat /\ (n < 1)%nat
              /\ row_datetime_venue (R := cpython_latin1) clock_dec01 cur row t0
                   = Ok (Some (start g), venue, n)
              /\ process_row (R := cpython_latin1) clock_dec01 [u "Team A"] cur row t0
                   = Ok (Some g, S n)
              /\ now clock_dec01 n = Ok (clock_dec01 n, S n)
              /\ dt_ltb (start g) (clock_dec01 n) = false) new.
Proof.
  exact (C10_game_invariant (R := cpython_latin1) clock_dec01 [u "Team A"]
           scenario_browser [] 0%nat
           [scenario_game "Team A" "Team B" false "Team A @ Team B"] 1%nat
           ltac:(vm_compute; reflexivity)).
Defined.

(** * Further properties of the code *)

Set Warnings "-clear-no-such-hyp".

(** ** Stripped texts *)

Section StripFacts.
Context {R : Runtime}.

Lemma lstrip_cases s :
  lstrip s = [] \/ exists c r, lstrip s = c :: r /\ isspace c = false.
Proof.
  induction s as [|c s IH]; simpl; [auto|].
  destruct (isspace c) eqn:E; [exact IH|]. right. eauto.
Qed.

Lemma lstrip_idem s : lstrip (lstrip s) = lstrip s.
Proof.
  destruct (lstrip_cases s) as [->|(c & r & -> & Hc)]; simpl; [reflexivity|].
  rewrite Hc. reflexivity.
Qed.

Lemma lstrip_snoc l c : isspace c = false -> lstrip (l ++ [c]) = lstrip l ++ [c].
Proof.
  intros Hc. induction l as [|d l IH]; simpl.
  - rewrite Hc. reflexivity.
  - destruct (isspace d); [exact IH|reflexivity].
Qed.

Lemma rstrip_cons c s : isspace c = false -> rstrip (c :: s) = c :: rstrip s.
Proof.
  intros Hc. unfold rstrip. simpl. rewrite (lstrip_snoc _ _ Hc).
  rewrite rev_app_distr. reflexivity.
Qed.

Lemma rstrip_idem s : rstrip (rstrip s) = rstrip s.
Proof. unfold rstrip. rewrite rev_involutive, lstrip_idem. reflexivity. Qed.

(** A text is trimmed when stripping leaves it as it is. *)
Lemma strip_cases s :
  strip s = [] \/ exists c r, strip s = c :: r /\ isspace c = false.
Proof.
  unfold strip. destruct (lstrip_cases s) as [->|(c & r & -> & Hc)].
  - left. reflexivity.
  - right. rewrite (rstrip_cons _ _ Hc). eauto.
Qed.

Lemma strip_idem s : strip (strip s) = strip s.
Proof.
  unfold strip at 2 3. destruct (lstrip_cases s) as [->|(c & r & -> & Hc)].
  - reflexivity.
  - rewrite (rstrip_cons _ _ Hc). unfold strip. simpl. rewrite Hc.
    rewrite (rstrip_cons _ _ Hc), rstrip_idem. reflexivity.
Qed.

Lemma strip_fixed_head c r : strip (c :: r) = c :: r -> isspace c = false.
Proof.
  intros H. destruct (strip_cases (c :: r)) as [E|(d & r' & E & Hd)];
    rewrite E in H; [discriminate|]. injection H as -> _. exact Hd.
Qed.

Lemma strip_fixed_rev s : strip s = s -> lstrip (rev s) = rev s.
Proof.
  intros H. rewrite <- H at 1. unfold strip, rstrip.
  rewrite rev_involutive, lstrip_idem.
  rewrite <- H at 2. unfold strip, rstrip. rewrite rev_involutive. reflexivity.
Qed.

Lemma strip_fixed_intro s : lstrip s = s -> lstrip (rev s) = rev s -> strip s = s.
Proof.
  intros H1 H2. unfold strip, rstrip. rewrite H1, H2. apply rev_involutive.
Qed.

Lemma lstrip_fixed_app a b : a <> [] -> lstrip a = a -> lstrip (a ++ b) = a ++ b.
Proof.
  destruct a as [|c a]; [congruence|]. intros _. simpl.
  destruct (isspace c) eqn:E; [|reflexivity].
  intros H. exfalso.
  assert (length (lstrip a) <= length a)%nat as Hlen.
  { clear. induction a as [|d a IH]; simpl; [lia|]. destruct (isspace d); simpl; lia. }
  rewrite H in Hlen. simpl in Hlen. lia.
Qed.

(** Trimmed texts that are not empty stay trimmed when joined. *)
Lemma strip_fixed_app a b :
  a <> [] -> b <> [] -> strip a = a -> strip b = b -> strip (a ++ b) = a ++ b.
Proof.
  intros Ha Hb Sa Sb. apply strip_fixed_intro.
  - apply lstrip_fixed_app; [exact Ha|].
    destruct a as [|c a]; [congruence|]. simpl.
    rewrite (strip_fixed_head _ _ Sa). reflexivity.
  - rewrite rev_app_distr. apply lstrip_fixed_app.
    + intros E. apply (f_equal (@rev cp)) in E. rewrite rev_involutive in E. auto.
    + apply strip_fixed_rev. exact Sb.
Qed.

Lemma strip_fixed_concat (pieces : list pystr) :
  Forall (fun s => s <> [] /\ strip s = s) pieces ->
  strip (concat pieces) = concat pieces.
Proof.
  induction 1 as [|s pieces [Hne Hs] _ IH]; simpl; [reflexivity|].
  destruct (concat pieces) as [|c r] eqn:E.
  - rewrite app_nil_r. exact Hs.
  - apply strip_fixed_app; [exact Hne|discriminate|exact Hs|exact IH].
Qed.

(** [get_text(strip=True)] gives a trimmed text. *)
Lemma get_text_strip_trimmed n : strip (get_text_strip n) = get_text_strip n.
Proof.
  unfold get_text_strip. apply strip_fixed_concat.
  apply List.Forall_forall. intros s Hs. apply filter_In in Hs. destruct Hs as [Hin Hne].
  split.
  - intros ->. rewrite bool_decide_eq_true_2 in Hne by reflexivity. discriminate.
  - apply in_flat_map in Hin. destruct Hin as (d & _ & Hd).
    destruct d as [txt|]; [|destruct Hd].
    destruct Hd as [<-|[]]. apply strip_idem.
Qed.

End StripFacts.

(** ** Team names *)

Section TeamFacts.
Context {R : Runtime}.

Lemma dedup_teams_spec teams : forall seen,
  NoDup (dedup_teams seen teams)
  /\ (forall name, name ∈ dedup_teams seen teams <-> name ∈ teams /\ name ∉ seen)
  /\ sublist (dedup_teams seen teams) teams.
Proof.
  induction teams as [|team rest IH]; intros seen; simpl.
  - split; [constructor|]. split; [|constructor]. intros name. set_solver.
  - destruct (decide (team ∈ seen)) as [Hin|Hnot].
    + destruct (IH seen) as (Hnd & Hmem & Hsub).
      split; [exact Hnd|]. split; [|apply sublist_cons; exact Hsub].
      intros name. rewrite Hmem. set_solver.
    + destruct (IH ({[team]} ∪ seen)) as (Hnd & Hmem & Hsub).
      split; [|split; [|apply sublist_skip; exact Hsub]].
      * apply NoDup_cons. split; [|exact Hnd]. rewrite Hmem. set_solver.
      * intros name. rewrite elem_of_cons, Hmem.
        destruct (decide (name = team)) as [->|Hne]; set_solver.
Qed.

Lemma team_names_distinct_in_order_aux (row : node) :
  NoDup (extract_team_names row)
  /\ (forall name, name ∈ extract_team_names row <-> name ∈ all_teams row)
  /\ sublist (extract_team_names row) (all_teams row).
Proof.
  unfold extract_team_names.
  destruct (dedup_teams_spec (all_teams row) ∅) as (Hnd & Hmem & Hsub).
  split; [exact Hnd|]. split; [|exact Hsub].
  intros name. rewrite Hmem. set_solver.
Qed.

Lemma dedup_teams_positions teams : forall pre seen,
  (forall x, x ∈ seen <-> x ∈ pre) ->
  exists positions,
    StronglySorted lt positions
    /\ (forall j, j ∈ positions <->
          (length pre <= j)%nat
          /\ exists name, (pre ++ teams) !! j = Some name
                          /\ name ∉ take j (pre ++ teams))
    /\ Forall2 (fun j name => (pre ++ teams) !! j = Some name)
         positions (dedup_teams seen teams).
Proof.
  induction teams as [|team rest IH]; intros pre seen Hseen; simpl.
  - exists []. split; [constructor|]. split; [|constructor].
    intros j. split; [intros H; inversion H|].
    intros (Hle & name & Hl & _). rewrite app_nil_r in Hl.
    apply lookup_lt_Some in Hl. lia.
  - assert (forall x, x ∈ {[team]} ∪ seen <-> x ∈ pre ++ [team]) as Hseen1.
    { intros x. rewrite elem_of_union, elem_of_singleton, elem_of_app,
        list_elem_of_singleton, Hseen. tauto. }
    assert (team ∈ seen -> forall x, x ∈ seen <-> x ∈ pre ++ [team]) as Hseen0.
    { intros Hin x. rewrite elem_of_app, list_elem_of_singleton, Hseen.
      split; [tauto|]. intros [H| ->]; [exact H|]. apply Hseen, Hin. }
    assert ((pre ++ [team]) ++ rest = pre ++ team :: rest) as E
      by (rewrite <- app_assoc; reflexivity).
    assert (length (pre ++ [team]) = S (length pre)) as L
      by (rewrite length_app; simpl; lia).
    assert ((pre ++ team :: rest) !! length pre = Some team) as Hat
      by (apply list_lookup_middle; reflexivity).
    assert (take (length pre) (pre ++ team :: rest) = pre) as Htake
      by apply take_app_length.
    destruct (decide (team ∈ seen)) as [Hin|Hnot].
    + destruct (IH (pre ++ [team]) seen (Hseen0 Hin)) as (pos & Hs & Hm & Hf).
      rewrite E in Hm, Hf. rewrite L in Hm.
      exists pos. split; [exact Hs|]. split; [|exact Hf].
      intros j. rewrite Hm. split.
      * intros (Hle & H). split; [lia|exact H].
      * intros (Hle & name & Hl & Hn). split; [|eauto].
        destruct (decide (j = length pre)) as [->|Hne]; [|lia].
        rewrite Hat in Hl. injection Hl as <-. rewrite Htake in Hn.
        exfalso. apply Hn, Hseen, Hin.
    + destruct (IH (pre ++ [team]) _ Hseen1) as (pos & Hs & Hm & Hf).
      rewrite E in Hm, Hf. rewrite L in Hm.
      exists (length pre :: pos). split; [|split].
      * constructor; [exact Hs|]. apply Forall_forall. intros j Hj.
        apply Hm in Hj. lia.
      * intros j. rewrite elem_of_cons, Hm. split.
        -- intros [->|(Hle & H)]; [|split; [lia|exact H]].
           split; [lia|]. exists team. split; [exact Hat|].
           rewrite Htake, <- Hseen. exact Hnot.
        -- intros (Hle & H).
           destruct (decide (j = length pre)) as [->|Hne]; [left; reflexivity|].
           right. split; [lia|exact H].
      * constructor; [exact Hat|exact Hf].
Qed.

(** X1: the team names of a row are the texts of its team links without
    repetition, in the order of first appearance: they are the texts at
    the positions, in increasing order, where a text appears that no
    earlier position has. *)
Theorem team_names_distinct_in_order (row : node) :
  NoDup (extract_team_names row)
  /\ (forall name, name ∈ extract_team_names row <-> name ∈ all_teams row)
  /\ exists positions,
       StronglySorted lt positions
       /\ (forall j, j ∈ positions <->
             exists name, all_teams row !! j = Some name
                          /\ name ∉ take j (all_teams row))
       /\ Forall2 (fun j name => all_teams row !! j = Some name)
            positions (extract_team_names row).
Proof.
  destruct (team_names_distinct_in_order_aux row) as (Hnd & Hmem & _).
  split; [exact Hnd|]. split; [exact Hmem|].
  destruct (dedup_teams_positions (all_teams row) [] ∅) as (pos & Hs & Hm & Hf).
  { intros x. set_solver. }
  exists pos. split; [exact Hs|]. split; [|exact Hf].
  intros j. rewrite Hm. simpl. split; [tauto|]. intros H. split; [lia|exact H].
Qed.

Lemma team_names_trimmed_aux (row : node) (name : pystr) :
  name ∈ extract_team_names row -> name <> [] /\ strip name = name.
Proof.
  intros H. apply (proj1 (proj1 (proj2 (team_names_distinct_in_order_aux row)) name)) in H.
  apply list_elem_of_In in H. unfold all_teams in H. apply filter_In in H.
  destruct H as [Hin Hne]. split.
  - intros ->. rewrite bool_decide_eq_true_2 in Hne by reflexivity. discriminate.
  - apply in_map_iff in Hin. destruct Hin as (a & <- & _). apply get_text_strip_trimmed.
Qed.

(** X2: every team name of a row is a non-empty text with no white space at
    either end. *)
Theorem team_names_trimmed (row : node) (name : pystr) :
  name ∈ extract_team_names row -> name <> [] /\ strip name = name.
Proof. apply team_names_trimmed_aux. Qed.

End TeamFacts.

(** X2, for "Team A" in the scenario's row. *)
Lemma team_names_trimmed_scenario :
  u "Team A" <> [] /\ strip (R := cpython_latin1) (u "Team A") = u "Team A".
Proof.
  apply (team_names_trimmed (R := cpython_latin1) scenario_row (u "Team A")).
  apply list_elem_of_In. vm_compute. left. reflexivity.
Defined.

(** ** Configuration *)

Section InitFacts.
Context {R : Runtime}.

Lemma split_on_length sep s :
  length (split_on sep s) = S (length (List.filter (N.eqb sep) s)).
Proof.
  induction s as [|c s IH]; simpl; [reflexivity|].
  rewrite (N.eqb_sym sep c).
  destruct (c =? sep)%N; simpl; [rewrite IH; reflexivity|].
  destruct (split_on sep s) as [|w ws]; simpl in *; [discriminate|exact IH].
Qed.

(** X3: the construction fails, with ValueError, exactly when TEAM_NAMES is
    unset or empty; otherwise there is one configured name per
    comma-separated piece of it, each with no white space at either end. *)
Theorem configured_names (env_team_names : option pystr) :
  (fetcher_init env_team_names = Raise ValueError
     <-> env_team_names = None \/ env_team_names = Some [])
  /\ forall names, fetcher_init env_team_names = Ok names ->
       exists s, env_team_names = Some s
         /\ length names = S (length (List.filter (N.eqb comma) s))
         /\ Forall (fun name => strip name = name) names.
Proof.
  unfold fetcher_init. destruct env_team_names as [[|c s]|].
  - split; [tauto|discriminate].
  - split; [split; [discriminate|intros [H|H]; discriminate]|].
    intros names [= <-]. exists (c :: s). split; [reflexivity|].
    change (length (map strip (split_on comma (c :: s)))
              = S (length (List.filter (N.eqb comma) (c :: s)))
            /\ Forall (fun name => strip name = name)
                 (map strip (split_on comma (c :: s)))).
    rewrite length_map, split_on_length. split; [reflexivity|].
    apply List.Forall_forall. intros name Hin. apply in_map_iff in Hin.
    destruct Hin as (piece & <- & _). apply strip_idem.
  - split; [tauto|discriminate].
Qed.

End InitFacts.

(** ** The team filter *)

Section MatchFacts.
Context {R : Runtime}.
Variable my_teams : list pystr.

Lemma py_index_nat {A} (l : list A) (k : nat) x :
  l !! k = Some x -> py_index l (Z.of_nat k) = Ok x.
Proof.
  intros H. pose proof (lookup_lt_Some _ _ _ H) as Hlt. unfold py_index.
  destruct (Z.ltb_spec (Z.of_nat k) 0); [lia|].
  destruct (Z.leb_spec 0 (Z.of_nat k)); [|lia].
  destruct (Z.ltb_spec (Z.of_nat k) (Z.of_nat (length l))); [|lia].
  simpl. rewrite Nat2Z.id, H. reflexivity.
Qed.

Lemma py_index_from_end {A} (l : list A) (k : nat) x :
  (1 <= k <= length l)%nat -> l !! (length l - k)%nat = Some x ->
  py_index l (- Z.of_nat k) = Ok x.
Proof.
  intros Hk H. unfold py_index.
  destruct (Z.ltb_spec (- Z.of_nat k) 0); [|lia].
  destruct (Z.leb_spec 0 (- Z.of_nat k + Z.of_nat (length l))); [|lia].
  destruct (Z.ltb_spec (- Z.of_nat k + Z.of_nat (length l)) (Z.of_nat (length l))); [|lia].
  simpl. replace (Z.to_nat (- Z.of_nat k + Z.of_nat (length l))) with (length l - k)%nat by lia.
  rewrite H. reflexivity.
Qed.

Lemma match_team_from_spec team_names : forall rest pre,
  team_names = pre ++ rest -> (2 <= length team_names)%nat ->
  Forall (fun name => name ∉ my_teams) pre ->
  (match_team_from my_teams team_names (length pre) rest = Ok None
   /\ Forall (fun name => name ∉ my_teams) team_names)
  \/ exists i our opp,
       match_team_from my_teams team_names (length pre) rest
         = Ok (Some (our, opp, Nat.eqb i 1))
       /\ team_names !! i = Some our /\ our ∈ my_teams
       /\ (forall j name, (j < i)%nat -> team_names !! j = Some name -> name ∉ my_teams)
       /\ team_names !! opponent_place (length team_names) i = Some opp.
Proof.
  induction rest as [|team rest IH]; intros pre Heq Hlen Hpre; simpl.
  - left. rewrite app_nil_r in Heq. subst. auto.
  - destruct (decide (team ∈ my_teams)) as [Hin|Hnot].
    + right. set (i := length pre).
      assert (length team_names = (i + S (length rest))%nat) as Hn
        by (subst team_names i; rewrite length_app; reflexivity).
      assert (exists opp, team_names !! opponent_place (length team_names) i = Some opp)
        as [opp Hopp].
      { apply lookup_lt_is_Some. unfold opponent_place.
        destruct i as [|[|i']]; lia. }
      exists i, team, opp.
      assert (py_index team_names (1 - Z.of_nat i) = Ok opp) as ->.
      { unfold opponent_place in Hopp. destruct i as [|[|i']] eqn:Ei.
        - apply (py_index_nat team_names 1). exact Hopp.
        - apply (py_index_nat team_names 0). exact Hopp.
        - replace (1 - Z.of_nat (S (S i'))) with (- Z.of_nat (S i')) by lia.
          apply py_index_from_end; [lia|].
          replace (length team_names - S i')%nat
            with (length team_names + 1 - S (S i'))%nat by lia.
          exact Hopp. }
      simpl. split; [reflexivity|].
      split; [subst team_names i; apply list_lookup_middle; reflexivity|].
      split; [exact Hin|]. split; [|exact Hopp].
      intros j name Hj Hl. subst team_names.
      rewrite lookup_app_l in Hl by exact Hj.
      rewrite Forall_forall in Hpre. apply Hpre.
      apply list_elem_of_lookup. eauto.
    + specialize (IH (pre ++ [team])).
      rewrite length_app in IH. simpl in IH.
      replace (length pre + 1)%nat with (S (length pre)) in IH by lia.
      apply IH; [rewrite <- app_assoc; exact Heq|exact Hlen|].
      apply Forall_app. split; [exact Hpre|]. constructor; [exact Hnot|constructor].
Qed.

(** X4: on two names or more the team filter never fails on its index
    [1 - i]: it finds no configured name, or it takes the first configured
    name of the row as our team, with the name the index denotes as
    opponent, and calls the game a home game exactly when our team is the
    second name. *)
Theorem match_team_first_configured (team_names : list pystr) :
  (2 <= length team_names)%nat ->
  (match_team my_teams team_names = Ok None
   /\ Forall (fun name => name ∉ my_teams) team_names)
  \/ exists i our opp,
       match_team my_teams team_names = Ok (Some (our, opp, Nat.eqb i 1))
       /\ team_names !! i = Some our /\ our ∈ my_teams
       /\ (forall j name, (j < i)%nat -> team_names !! j = Some name -> name ∉ my_teams)
       /\ team_names !! opponent_place (length team_names) i = Some opp.
Proof.
  intros Hlen. apply (match_team_from_spec team_names team_names []); auto.
Qed.

End MatchFacts.

(** X4, for the two names of the scenario with "Team B" configured. *)
Lemma match_team_first_configured_scenario :
  (match_team [u "Team B"] [u "Team A"; u "Team B"] = Ok None
   /\ Forall (fun name => name ∉ [u "Team B"]) [u "Team A"; u "Team B"])
  \/ exists i our opp,
       match_team [u "Team B"] [u "Team A"; u "Team B"] = Ok (Some (our, opp, Nat.eqb i 1))
       /\ [u "Team A"; u "Team B"] !! i = Some our /\ our ∈ [u "Team B"]
       /\ (forall j name, (j < i)%nat -> [u "Team A"; u "Team B"] !! j = Some name ->
             name ∉ [u "Team B"])
       /\ [u "Team A"; u "Team B"] !! opponent_place 2 i = Some opp.
Proof.
  exact (match_team_first_configured [u "Team B"] [u "Team A"; u "Team B"]
           ltac:(simpl; lia)).
Defined.

(** ** What can be raised *)

Lemma bind_Raise {A B} (c : M A) (k : A -> M B) t e :
  bind c k t = Raise e ->
  c t = Raise e \/ exists a t1, c t = Ok (a, t1) /\ k a t1 = Raise e.
Proof.
  unfold bind. destruct (c t) as [[a t1]|e']; [eauto|]. intros [= ->]. auto.
Qed.

Lemma lift_Raise {A} (r : result A) t e : lift r t = Raise e -> r = Raise e.
Proof. unfold lift. destruct r; [discriminate|]. intros [= ->]. reflexivity. Qed.

Lemma rbind_Raise {A B} (r : result A) (k : A -> result B) e :
  rbind r k = Raise e -> r = Raise e \/ exists a, r = Ok a /\ k a = Raise e.
Proof. destruct r; simpl; [eauto|]. intros [= ->]. auto. Qed.

Lemma py_index_raises {A} (l : list A) i e : py_index l i = Raise e -> e = IndexError.
Proof.
  unfold py_index. destruct (_ && _); [|congruence].
  destruct (l !! _); [discriminate|congruence].
Qed.

Lemma datetime_new_raises y mo d h mi e :
  datetime_new y mo d h mi = Raise e -> e = ValueError \/ e = OverflowError.
Proof.
  unfold datetime_new.
  repeat match goal with
    | |- (if ?c then _ else _) = _ -> _ => destruct c
    end; intros [= <-] || discriminate; auto.
Qed.

Lemma datetime_add_minutes_raises dt n e :
  datetime_add_minutes dt n = Raise e -> e = OverflowError.
Proof.
  unfold datetime_add_minutes.
  destruct (Nat.iter _ _ _) as [[y m] d]. destruct (9999 <? y); congruence.
Qed.

Section RaiseFacts.
Context {R : Runtime}.
Variable clock : nat -> datetime.
Variable my_teams : list pystr.

Lemma py_int_raises s e : py_int s = Raise e -> e = ValueError.
Proof.
  unfold py_int. destruct (over_digit_limit s); [congruence|].
  destruct s; [congruence|]. destruct (forallb _ _); [discriminate|congruence].
Qed.

Lemma parse_french_date_raises date_str time_str yr t e :
  parse_french_date clock date_str time_str yr t = Raise e ->
  e = ValueError \/ e = OverflowError.
Proof.
  unfold parse_french_date.
  destruct (Re.search date_re date_str); [|discriminate].
  intros H. apply bind_Raise in H. destruct H as [H|(d & t1 & H1 & H)].
  { apply lift_Raise, py_int_raises in H. auto. }
  destruct (FRENCH_MONTHS !! _) as [mo|]; [|discriminate].
  destruct (mo =? 0); [discriminate|].
  apply bind_Raise in H. destruct H as [H|(y & t2 & H2 & H)].
  { destruct yr; [discriminate|]. apply bind_Raise in H.
    destruct H as [H|(? & ? & _ & H)]; discriminate. }
  destruct (Re.search time_re time_str); [|discriminate].
  apply bind_Raise in H. destruct H as [H|(h & t3 & H3 & H)].
  { apply lift_Raise, py_int_raises in H. auto. }
  apply bind_Raise in H. destruct H as [H|(mi & t4 & H4 & H)].
  { apply lift_Raise, py_int_raises in H. auto. }
  apply lift_Raise in H.
  destruct (datetime_new y mo d h mi) as [dt|e'] eqn:Hn; simpl in H; [discriminate|].
  apply datetime_new_raises in Hn.
  destruct Hn as [->| ->]; simpl in H; [discriminate|]. injection H as <-. auto.
Qed.

(** The handler of the absolute encoding lets nothing through but an
    OverflowError. *)
Lemma absolute_datetime_raises time_str tds e :
  absolute_datetime time_str tds = Raise e -> e = OverflowError.
Proof.
  unfold absolute_datetime. destruct (find_iso_date tds); [|discriminate].
  match goal with
  | |- rcatch _ ?body _ = _ -> _ => destruct body as [r|e'] eqn:Hb
  end; simpl; [discriminate|].
  assert (e' = ValueError \/ e' = IndexError \/ e' = OverflowError) as He'.
  { repeat match goal with
      | H : rbind _ _ = Raise _ |- _ =>
          apply rbind_Raise in H; destruct H as [H|(? & ? & H)]
      | H : py_index _ _ = Raise _ |- _ => apply py_index_raises in H
      | H : py_int _ = Raise _ |- _ => apply py_int_raises in H
      | H : datetime_new _ _ _ _ _ = Raise _ |- _ => apply datetime_new_raises in H
      | H : match ?x with _ => _ end = Raise _ |- _ => destruct x; [|discriminate]
      end; try discriminate; intuition. }
  destruct He' as [->|[->| ->]]; simpl; congruence.
Qed.

Lemma scan_cells_raises all_tds tds e :
  scan_cells all_tds tds = Raise e -> e = OverflowError.
Proof.
  induction tds as [|td rest IH]; simpl; [discriminate|].
  destruct (find_class _ _ td); [|exact IH].
  destruct (bool_decide _); [exact IH|].
  destruct (bool_decide _); [|exact IH].
  intros H. apply rbind_Raise in H. destruct H as [H|(? & _ & H)]; [|discriminate].
  eapply absolute_datetime_raises; eassumption.
Qed.

Lemma row_datetime_venue_raises cur row t e :
  row_datetime_venue clock cur row t = Raise e -> e = ValueError \/ e = OverflowError.
Proof.
  unfold row_datetime_venue. intros H.
  apply bind_Raise in H. destruct H as [H|([gd v] & t1 & _ & H)].
  { apply lift_Raise, scan_cells_raises in H. auto. }
  destruct gd; [destruct cur as [[|]|]; discriminate|].
  destruct cur as [[|c s]|]; try discriminate.
  apply bind_Raise in H. destruct H as [H|(? & ? & _ & H)]; [|discriminate].
  destruct (find_class _ _ row); [|discriminate].
  eapply parse_french_date_raises; eassumption.
Qed.

Lemma split_ws_go_nonempty s : forall cur,
  cur <> [] -> exists w ws, split_ws_go cur s = w :: ws /\ w <> [].
Proof.
  assert (forall cur : pystr, cur <> [] -> rev cur <> []) as Hrev.
  { intros cur Hc E. apply Hc. apply (f_equal (@rev cp)) in E.
    rewrite rev_involutive in E. exact E. }
  induction s as [|c s IH]; intros cur Hc; simpl.
  - destruct cur; [congruence|]. eauto.
  - destruct (isspace c).
    + destruct cur; [congruence|]. eauto.
    + apply IH. discriminate.
Qed.

Lemma row_category_Ok row :
  exists category, row_category row = Ok category /\ category <> [].
Proof.
  unfold row_category.
  destruct (find_class _ _ row) as [cat_name_div|];
    [|eexists; split; [reflexivity|vm_compute; discriminate]].
  destruct (find _ cat_name_div) as [cat_span|];
    [|eexists; split; [reflexivity|vm_compute; discriminate]].
  pose proof (get_text_strip_trimmed cat_span) as Ht.
  destruct (get_text_strip cat_span) as [|c r];
    [eexists; split; [reflexivity|vm_compute; discriminate]|].
  apply strip_fixed_head in Ht.
  unfold split_ws. simpl. rewrite Ht.
  destruct (split_ws_go_nonempty r [c]) as (w & ws & -> & Hw); [discriminate|].
  exists w. split; [|exact Hw]. apply (py_index_nat (w :: ws) 0). reflexivity.
Qed.

(** The first word that [split()] gives is the longest prefix without
    white space. *)
Lemma split_ws_go_first s : forall cur,
  cur <> [] ->
  exists p rest ws,
    split_ws_go cur s = (rev cur ++ p) :: ws
    /\ s = p ++ rest
    /\ Forall (fun c => isspace c = false) p
    /\ (rest = [] \/ exists c r, rest = c :: r /\ isspace c = true).
Proof.
  induction s as [|c s IH]; intros cur Hc; simpl.
  - destruct cur as [|d cur]; [congruence|].
    exists [], [], []. rewrite app_nil_r. repeat split; auto.
  - destruct (isspace c) eqn:Hsp.
    + destruct cur as [|d cur]; [congruence|].
      exists [], (c :: s), (split_ws_go [] s). rewrite app_nil_r.
      repeat split; auto. right. eauto.
    + destruct (IH (c :: cur)) as (p & rest & ws & Hgo & -> & Hp & Hrest);
        [discriminate|].
      exists (c :: p), rest, ws. simpl in Hgo. rewrite <- app_assoc in Hgo.
      repeat split; auto.
Qed.

Lemma row_category_cases row :
  exists category,
    row_category row = Ok category /\ category <> []
    /\ (find_class (u "div") (u "cat_name") row = None -> category = u "Unknown")
    /\ (forall cat_name_div,
          find_class (u "div") (u "cat_name") row = Some cat_name_div ->
          find (u "span") cat_name_div = None -> category = u "Hockey")
    /\ (forall cat_name_div cat_span,
          find_class (u "div") (u "cat_name") row = Some cat_name_div ->
          find (u "span") cat_name_div = Some cat_span ->
          (get_text_strip cat_span = [] -> category = u "Hockey")
          /\ (get_text_strip cat_span <> [] ->
               exists rest,
                 get_text_strip cat_span = category ++ rest
                 /\ Forall (fun c => isspace c = false) category
                 /\ (rest = [] \/ exists c r, rest = c :: r /\ isspace c = true))).
Proof.
  unfold row_category.
  destruct (find_class _ _ row) as [cat_name_div|].
  2:{ eexists. split; [reflexivity|]. split; [vm_compute; discriminate|].
      repeat split; intros; try discriminate; reflexivity. }
  destruct (find _ cat_name_div) as [cat_span|] eqn:Hspan.
  2:{ eexists. split; [reflexivity|]. split; [vm_compute; discriminate|].
      split; [discriminate|]. split; [reflexivity|].
      intros d sp [= <-] Hsp. congruence. }
  pose proof (get_text_strip_trimmed cat_span) as Ht.
  destruct (get_text_strip cat_span) as [|c r] eqn:Htext.
  { eexists. split; [reflexivity|]. split; [vm_compute; discriminate|].
    split; [discriminate|]. split; [intros d [= <-]; congruence|].
    intros d sp [= <-] Hsp. rewrite Hspan in Hsp. injection Hsp as <-.
    rewrite Htext. split; [reflexivity|congruence]. }
  apply strip_fixed_head in Ht.
  unfold split_ws. simpl. rewrite Ht.
  destruct (split_ws_go_first r [c]) as (q & rest & ws & -> & -> & Hq & Hrest);
    [discriminate|].
  exists (c :: q). split; [apply (py_index_nat ((c :: q) :: ws) 0); reflexivity|].
  split; [discriminate|]. split; [discriminate|].
  split; [intros d [= <-]; congruence|].
  intros d sp [= <-] Hsp. rewrite Hspan in Hsp. injection Hsp as <-.
  rewrite Htext. split; [discriminate|]. intros _.
  exists rest. split; [reflexivity|]. split; [constructor; assumption|exact Hrest].
Qed.

Lemma match_team_Ok team_names :
  (2 <= length team_names)%nat -> exists r, match_team my_teams team_names = Ok r.
Proof.
  intros Hlen.
  destruct (match_team_from_spec my_teams team_names team_names [] eq_refl Hlen
              (Forall_nil_2 _))
    as [[Hm _]|(i & our & opp & Hm & _)]; eauto.
Qed.

Lemma process_row_raises cur row t e :
  process_row clock my_teams cur row t = Raise e -> e = ValueError \/ e = OverflowError.
Proof.
  unfold process_row.
  destruct (negb _); [discriminate|].
  destruct (_ <? 2)%nat; [discriminate|].
  destruct (Nat.ltb_spec (length (extract_team_names row)) 2) as [Hlt|Hge];
    [discriminate|].
  destruct (match_team_Ok (extract_team_names row)) as [r Hr]; [lia|].
  intros H. apply bind_Raise in H. destruct H as [H|(m & t1 & H1 & H)].
  { apply lift_Raise in H. congruence. }
  destruct m as [[[our opp] home]|]; [|discriminate].
  destruct our; [discriminate|].
  apply bind_Raise in H. destruct H as [H|(cat & t2 & H2 & H)].
  { apply lift_Raise in H. destruct (row_category_Ok row) as (c' & Hc & _). congruence. }
  apply bind_Raise in H. destruct H as [H|([gd venue] & t3 & H3 & H)].
  { eapply row_datetime_venue_raises; eassumption. }
  destruct gd as [gd|]; [|discriminate].
  apply bind_Raise in H. destruct H as [H|(cur_dt & t4 & H4 & H)]; [discriminate|].
  destruct (dt_ltb gd cur_dt); [discriminate|].
  destruct (route_venue venue cat) as [[cal ttl]|]; [|discriminate].
  apply bind_Raise in H. destruct H as [H|(? & ? & _ & H)]; [|discriminate].
  apply lift_Raise, datetime_add_minutes_raises in H. auto.
Qed.

Lemma rows_loop_raises rows : forall cur games t e,
  rows_loop clock my_teams rows cur games t = Raise e ->
  e = ValueError \/ e = OverflowError.
Proof.
  induction rows as [|row rest IH]; intros cur games t e; simpl; [discriminate|].
  destruct (find (u "h2") row); [apply IH|].
  intros H. apply bind_Raise in H. destruct H as [H|(found & t1 & _ & H)].
  - eapply process_row_raises; eassumption.
  - eapply IH; eassumption.
Qed.

End RaiseFacts.

(** X5: whatever the rows of the table hold, the only exceptions that leave
    the loop over them are ValueError and OverflowError, from [int], from
    [datetime] and from the addition of the fifty minutes; no subscript of
    the loop fails: not the opponent among the team names, not the first
    word of the category, not a part of the ISO date. *)
Theorem rows_loop_exceptions {R : Runtime} (clock : nat -> datetime)
    (my_teams : list pystr) (all_rows : list node) (current_date_str : option pystr)
    (games : list game) (t : nat) (e : exn) :
  rows_loop clock my_teams all_rows current_date_str games t = Raise e ->
  e = ValueError \/ e = OverflowError.
Proof. apply rows_loop_raises. Qed.

(** X5, the rows under a date header whose day number is beyond the range
    of a C int: the loop ends in an OverflowError. *)
Lemma rows_loop_exceptions_overflow_page :
  rows_loop (R := cpython_latin1) clock_dec01 [u "Team A"]
    (find_all (u "tr") overflow_page) None [] 0%nat = Raise OverflowError
  /\ (OverflowError = ValueError \/ OverflowError = OverflowError).
Proof.
  split; [vm_compute; reflexivity|].
  exact (rows_loop_exceptions (R := cpython_latin1) clock_dec01 [u "Team A"]
           (find_all (u "tr") overflow_page) None [] 0%nat OverflowError
           ltac:(vm_compute; reflexivity)).
Defined.

(** X6: the category of a row is always found, and is never empty. It is
    "Unknown" when the row has no [cat_name] container, "Hockey" when the
    container has no span or the span no text, and otherwise the first word
    of the text of the span: its longest prefix without white space. *)
Theorem row_category_first_word {R : Runtime} (row : node) :
  exists category,
    row_category row = Ok category /\ category <> []
    /\ (find_class (u "div") (u "cat_name") row = None -> category = u "Unknown")
    /\ (forall cat_name_div,
          find_class (u "div") (u "cat_name") row = Some cat_name_div ->
          find (u "span") cat_name_div = None -> category = u "Hockey")
    /\ (forall cat_name_div cat_span,
          find_class (u "div") (u "cat_name") row = Some cat_name_div ->
          find (u "span") cat_name_div = Some cat_span ->
          (get_text_strip cat_span = [] -> category = u "Hockey")
          /\ (get_text_strip cat_span <> [] ->
               exists rest,
                 get_text_strip cat_span = category ++ rest
                 /\ Forall (fun c => isspace c = false) category
                 /\ (rest = [] \/ exists c r, rest = c :: r /\ isspace c = true))).
Proof. apply row_category_cases. Qed.

(** ** Fifty minutes later *)

Lemma lex_ltb_same x a b : lex_ltb (x :: a) (x :: b) = lex_ltb a b.
Proof. simpl. rewrite Z.ltb_irrefl, Z.eqb_refl. reflexivity. Qed.

Lemma lex_ltb_lt x y a b : x < y -> lex_ltb (x :: a) (y :: b) = true.
Proof. intros H. simpl. apply Z.ltb_lt in H. rewrite H. reflexivity. Qed.

(** Fifty minutes after a datetime there is a later datetime, unless the
    year 9999 ends before. *)
Lemma datetime_add_50_later dt e :
  valid_datetime dt -> datetime_add_minutes dt 50 = Ok e ->
  valid_datetime e /\ dt_ltb dt e = true.
Proof.
  intros (Hy & Hm & Hd & Hh & Hmi & Hs & Hu). unfold datetime_add_minutes.
  set (total := hour dt * 60 + minute dt + 50).
  assert (total / 1440 = 0 \/ total / 1440 = 1) as [Hc|Hc]
    by (subst total; Z.to_euclidean_division_equations; lia).
  - rewrite Hc. change (Z.to_nat 0) with 0%nat. cbn [Nat.iter nat_rect].
    destruct (9999 <? year dt); [discriminate|]. intros [= <-].
    assert (0 <= total mod 1440 / 60 <= 23 /\ 0 <= total mod 60 <= 59
            /\ (hour dt < total mod 1440 / 60
                \/ hour dt = total mod 1440 / 60 /\ minute dt < total mod 60)) as (H1 & H2 & H3)
      by (subst total; Z.to_euclidean_division_equations; lia).
    split; [unfold valid_datetime; simpl; lia|].
    unfold dt_ltb, dt_fields. simpl year; simpl month; simpl day; simpl hour;
      simpl minute; simpl second; simpl microsecond.
    rewrite !lex_ltb_same. destruct H3 as [H3|[<- H3]].
    + apply lex_ltb_lt. exact H3.
    + rewrite lex_ltb_same. apply lex_ltb_lt. exact H3.
  - rewrite Hc. change (Z.to_nat 1) with 1%nat. cbn [Nat.iter nat_rect].
    destruct (next_day (year dt, month dt, day dt)) as [[y' m'] d'] eqn:Hn.
    destruct (next_day_ordinal _ _ _ Hm Hd _ _ _ Hn) as (_ & Hm' & Hd' & Hy').
    destruct (Z.ltb_spec 9999 y'); [discriminate|]. intros [= <-].
    assert (0 <= total mod 1440 / 60 <= 23 /\ 0 <= total mod 60 <= 59) as (H1 & H2)
      by (subst total; Z.to_euclidean_division_equations; lia).
    split; [unfold valid_datetime; simpl; lia|].
    unfold dt_ltb, dt_fields. simpl year; simpl month; simpl day; simpl hour;
      simpl minute; simpl second; simpl microsecond.
    unfold next_day in Hn.
    destruct (Z.ltb_spec (day dt) (days_in_month (year dt) (month dt))).
    + injection Hn as <- <- <-. rewrite !lex_ltb_same. apply lex_ltb_lt. lia.
    + destruct (Z.ltb_spec (month dt) 12); injection Hn as <- <- <-.
      * rewrite lex_ltb_same. apply lex_ltb_lt. lia.
      * apply lex_ltb_lt. lia.
Qed.

(** X7: adding the fifty minutes of a game raises OverflowError exactly
    for a start on 9999-12-31 at 23:10 or later. *)
Theorem end_of_game_overflow (dt : datetime) :
  valid_datetime dt ->
  (datetime_add_minutes dt 50 = Raise OverflowError
   <-> year dt = 9999 /\ month dt = 12 /\ day dt = 31
       /\ 1390 <= hour dt * 60 + minute dt).
Proof.
  intros (Hy & Hm & Hd & Hh & Hmi & Hs & Hu). unfold datetime_add_minutes.
  set (total := hour dt * 60 + minute dt + 50).
  assert (total / 1440 = 0 /\ total < 1440 \/ total / 1440 = 1 /\ 1440 <= total)
    as [[Hc Ht]|[Hc Ht]]
    by (subst total; Z.to_euclidean_division_equations; lia).
  - rewrite Hc. change (Z.to_nat 0) with 0%nat. cbn [Nat.iter nat_rect].
    destruct (Z.ltb_spec 9999 (year dt)); [lia|].
    split; [discriminate|]. subst total. lia.
  - rewrite Hc. change (Z.to_nat 1) with 1%nat. cbn [Nat.iter nat_rect].
    unfold next_day.
    destruct (Z.ltb_spec (day dt) (days_in_month (year dt) (month dt))) as [Hlt|Hge].
    + destruct (Z.ltb_spec 9999 (year dt)); [lia|].
      split; [discriminate|]. intros (_ & Hm12 & Hd31 & _).
      rewrite Hm12, Hd31 in Hlt. unfold days_in_month in Hlt. simpl in Hlt. lia.
    + destruct (Z.ltb_spec (month dt) 12) as [Hm12|Hm12].
      * destruct (Z.ltb_spec 9999 (year dt)); [lia|].
        split; [discriminate|]. lia.
      * assert (month dt = 12) as Em by lia.
        assert (day dt = 31) as Ed
          by (rewrite Em in Hd, Hge; unfold days_in_month in Hd, Hge; simpl in Hd, Hge; lia).
        destruct (Z.ltb_spec 9999 (year dt + 1)).
        -- split; [intros _|reflexivity]. subst total. lia.
        -- split; [discriminate|]. lia.
Qed.

(** X7, the last evening of the year 9999. *)
Lemma end_of_game_overflow_9999 :
  datetime_add_minutes (mkdt 9999 12 31 23 30 0 0) 50 = Raise OverflowError.
Proof.
  apply (proj2 (end_of_game_overflow (mkdt 9999 12 31 23 30 0 0)
                  ltac:(unfold valid_datetime; vm_compute; intuition discriminate))).
  vm_compute. intuition discriminate.
Defined.

(** ** What every game of the list is *)

Section GameFacts.
Context {R : Runtime}.
Variable clock : nat -> datetime.
Variable my_teams : list pystr.

Lemma match_team_from_in team_names rest : forall i our opp home,
  match_team_from my_teams team_names i rest = Ok (Some (our, opp, home)) ->
  our ∈ my_teams /\ our ∈ rest.
Proof.
  induction rest as [|team rest IH]; intros i our opp home; simpl; [discriminate|].
  destruct (decide (team ∈ my_teams)) as [Hin|Hnot].
  - intros H. apply rbind_Ok in H. destruct H as (o & _ & [= <- _ _]).
    split; [exact Hin|]. apply elem_of_cons. auto.
  - intros H. destruct (IH _ _ _ _ H) as (H1 & H2).
    split; [exact H1|]. apply elem_of_cons. auto.
Qed.

Lemma absolute_datetime_whole time_str tds dt :
  absolute_datetime time_str tds = Ok (Some dt) -> second dt = 0 /\ microsecond dt = 0.
Proof.
  unfold absolute_datetime.
  destruct (find_iso_date tds) as [date_str|]; [|discriminate].
  match goal with
  | |- rcatch _ ?body _ = _ -> _ => destruct body as [[dt0|]|e] eqn:Hb
  end; simpl.
  - intros [= <-]. inv_M.
    destruct (Re.rmatch_ hm_groups_re time_str); [|discriminate].
    inv_M. injection Hb as <-.
    match goal with
    | H : datetime_new _ _ _ _ _ = Ok _ |- _ =>
        apply datetime_new_ok in H; destruct H as (-> & _); auto
    end.
  - discriminate.
  - destruct (_ || _); discriminate.
Qed.

Lemma scan_cells_whole all_tds tds dt venue :
  scan_cells all_tds tds = Ok (Some dt, venue) -> second dt = 0 /\ microsecond dt = 0.
Proof.
  induction tds as [|td rest IH]; simpl; [discriminate|].
  destruct (find_class _ _ td) as [date_div|]; [|exact IH].
  destruct (bool_decide (is_Some (Re.search iso_re _))); [exact IH|].
  destruct (bool_decide (is_Some (Re.rmatch_ hhmm_re _))); [|exact IH].
  intros H. inv_M. injection H as -> _.
  eapply absolute_datetime_whole; eassumption.
Qed.

Lemma row_datetime_venue_whole cur row t dt venue t' :
  row_datetime_venue clock cur row t = Ok (Some dt, venue, t') ->
  second dt = 0 /\ microsecond dt = 0.
Proof.
  unfold row_datetime_venue. intros H. inv_M.
  destruct a as [[gd|] v].
  - assert (Some dt = Some gd) as [= ->]
      by (destruct cur as [[|c s]|]; inv_M; congruence).
    eapply scan_cells_whole; eassumption.
  - destruct cur as [[|c s]|]; inv_M; try discriminate.
    injection H1 as <- _.
    destruct (find_class (u "div") (u "game_date") row); inv_M; [|discriminate].
    match goal with
    | H : parse_french_date _ _ _ None _ = Ok _ |- _ =>
        apply parse_french_date_Some in H; tauto
    end.
Qed.

Lemma route_venue_title venue category cal ttl :
  route_venue venue category = Some (cal, ttl) -> prefix_of (u "game ") ttl = true.
Proof.
  unfold route_venue.
  repeat match goal with
    | |- (if ?c then _ else _) = _ -> _ => destruct c
    end; intros [= <- <-] || discriminate;
    first [ exact (prefix_of_app (u "game ") category)
          | exact (prefix_of_app (u "game ") (category ++ u " Levis")) ].
Qed.

(** Whatever holds of the game of every row holds of the games appended. *)
Lemma rows_loop_Forall (P : game -> Prop) :
  (forall cur row t g t', process_row clock my_teams cur row t = Ok (Some g, t') -> P g) ->
  forall rows cur games t games' t',
    rows_loop clock my_teams rows cur games t = Ok (games', t') ->
    exists new, games' = games ++ new /\ Forall P new.
Proof.
  intros HP. induction rows as [|row rest IH]; intros cur games t games' t'; simpl.
  - intros H. inv_M. subst. exists []. rewrite app_nil_r. auto.
  - destruct (find (u "h2") row); [apply IH|].
    intros H. inv_M. destruct (IH _ _ _ _ _ H1) as (new & -> & Hnew).
    destruct a as [g|]; [|eauto].
    exists (g :: new). rewrite <- app_assoc. split; [reflexivity|].
    constructor; [eapply HP; eassumption|exact Hnew].
Qed.

Lemma fetch_games_Forall (P : game -> Prop) :
  (forall cur row t g t', process_row clock my_teams cur row t = Ok (Some g, t') -> P g) ->
  forall b games t games' t',
    fetch_games clock my_teams b games t = Ok (games', t') ->
    exists new, games' = games ++ new /\ Forall P new.
Proof.
  intros HP b games t games' t'. unfold fetch_games.
  destruct (negb (iframe_appears b)); [discriminate|].
  assert (forall t0 : nat, ret games t0 = Ok (games', t') ->
            exists new, games' = games ++ new /\ Forall P new) as Hret.
  { intros t0 H. inv_M. subst. exists []. rewrite app_nil_r. auto. }
  destruct (iframe b); [|apply Hret].
  destruct (find_class _ _ (soup b)); [|apply Hret].
  apply rows_loop_Forall. exact HP.
Qed.

(** X8: [fetch_games] keeps the games it was called with and appends
    games only for configured teams: our team of an appended game is a
    configured name and not empty, its location is empty, and its title
    starts with "game ". *)
Theorem fetched_games_are_ours (b : browser) (games : list game) (t : nat)
    (games' : list game) (t' : nat) :
  fetch_games clock my_teams b games t = Ok (games', t') ->
  exists new, games' = games ++ new
    /\ Forall (fun g => our_team g ∈ my_teams /\ our_team g <> []
                        /\ location g = []
                        /\ prefix_of (u "game ") (title g) = true) new.
Proof.
  apply fetch_games_Forall. intros cur row t0 g t1 H.
  apply process_row_Some in H.
  destruct H as (category & dt & venue & t2 & Hm & _ & _ & _ & _ & Hr & _ & _ & Hl & _).
  apply match_team_from_in in Hm. destruct Hm as (Hin & Hrow).
  split; [exact Hin|]. split; [exact (proj1 (team_names_trimmed_aux row _ Hrow))|].
  split; [exact Hl|]. eapply route_venue_title; eassumption.
Qed.

(** X9: every game that [fetch_games] appends starts on a whole minute of
    a date of the calendar, and ends on a date of the calendar later than
    it starts. *)
Theorem fetched_games_times (b : browser) (games : list game) (t : nat)
    (games' : list game) (t' : nat) :
  fetch_games clock my_teams b games t = Ok (games', t') ->
  exists new, games' = games ++ new
    /\ Forall (fun g => valid_datetime (start g)
                        /\ second (start g) = 0 /\ microsecond (start g) = 0
                        /\ valid_datetime (end_ g)
                        /\ dt_ltb (start g) (end_ g) = true) new.
Proof.
  apply fetch_games_Forall. intros cur row t0 g t1 H.
  apply process_row_Some in H.
  destruct H as (category & dt & venue & t2 & _ & _ & Hdv & _ & _ & _ & -> & He & _).
  destruct (row_datetime_venue_valid _ _ _ _ _ _ _ Hdv) as (Hv & _).
  destruct (row_datetime_venue_whole _ _ _ _ _ _ Hdv) as (Hs & Hu).
  destruct (datetime_add_50_later _ _ Hv He) as (Hve & Hlt).
  auto.
Qed.

End GameFacts.

(** X8, the run of the end-to-end scenario. *)
Lemma fetched_games_are_ours_scenario :
  exists new,
    [scenario_game "Team A" "Team B" false "Team A @ Team B"] = [] ++ new
    /\ Forall (fun g => our_team g ∈ [u "Team A"] /\ our_team g <> []
                        /\ location g = []
                        /\ prefix_of (u "game ") (title g) = true) new.
Proof.
  exact (fetched_games_are_ours (R := cpython_latin1) clock_dec01 [u "Team A"]
           scenario_browser [] 0%nat
           [scenario_game "Team A" "Team B" false "Team A @ Team B"] 1%nat
           ltac:(vm_compute; reflexivity)).
Defined.

(** X9, the run of the end-to-end scenario. *)
Lemma fetched_games_times_scenario :
  exists new,
    [scenario_game "Team A" "Team B" false "Team A @ Team B"] = [] ++ new
    /\ Forall (fun g => valid_datetime (start g)
                        /\ second (start g) = 0 /\ microsecond (start g) = 0
                        /\ valid_datetime (end_ g)
                        /\ dt_ltb (start g) (end_ g) = true) new.
Proof.
  exact (fetched_games_times (R := cpython_latin1) clock_dec01 [u "Team A"]
           scenario_browser [] 0%nat
           [scenario_game "Team A" "Team B" false "Team A @ Team B"] 1%nat
           ltac:(vm_compute; reflexivity)).
Defined.

(** ** The venue name *)

Section VenueFacts.
Context {R : Runtime}.

(** A repetition fails where what follows it fails on every text without
    the character [x]. *)
Lemma rep_fails (x : cp) k (cont : Re.mstate -> pystr -> option Re.rmatch) :
  (forall s st, x ∉ s -> cont st s = None) ->
  forall s lo hi st, x ∉ s -> Re.rep k cont lo hi st s = None.
Proof.
  intros Hcont. induction s as [|c s IH]; intros lo hi st Hx; simpl.
  - destruct lo; [apply Hcont; exact Hx|reflexivity].
  - assert (x ∉ s) as Hs by set_solver.
    rewrite (IH _ _ _ Hs).
    destruct lo; [rewrite (Hcont _ st Hx)|]; destruct (_ && _); reflexivity.
Qed.

Lemma one_lit_fails (x : cp) cont s st : x ∉ s -> Re.rep (Re.Lit x) cont 1 (Some 1%nat) st s = None.
Proof.
  intros Hx. destruct s as [|c s]; simpl; [reflexivity|].
  assert (c <> x) as Hc by set_solver.
  apply N.eqb_neq in Hc. rewrite Hc. reflexivity.
Qed.

Lemma paren_re_fails s st : 40%N ∉ s \/ 41%N ∉ s -> Re.match_at paren_re st s = None.
Proof.
  intros [H|H]; unfold paren_re, Re.star, Re.one; cbn [Re.match_at].
  - apply (rep_fails 40%N); [|exact H]. intros s' st' H'. apply one_lit_fails. exact H'.
  - apply (rep_fails 41%N); [|exact H]. intros s1 st1 H1. cbn [Re.match_at].
    apply (rep_fails 41%N); [|exact H1]. intros s2 st2 H2. cbn [Re.match_at].
    apply (rep_fails 41%N); [|exact H2]. intros s3 st3 H3. cbn [Re.match_at].
    apply one_lit_fails. exact H3.
Qed.

Lemma sub_paren_unchanged s : forall p,
  40%N ∉ s \/ 41%N ∉ s -> Re.sub_go paren_re [] p 0 s = s.
Proof.
  induction s as [|c s IH]; intros p H; cbn [Re.sub_go];
    rewrite (paren_re_fails _ _ H); [reflexivity|].
  f_equal. apply IH. destruct H; [left|right]; set_solver.
Qed.

(** X12: a venue text with no opening parenthesis, or with none that is
    closed, keeps all its text in the notes: the venue name is the venue
    text with the white space at its ends removed. *)
Theorem venue_name_without_parenthesis (venue : pystr) :
  40%N ∉ venue \/ 41%N ∉ venue -> venue_name_of venue = strip venue.
Proof.
  intros H. unfold venue_name_of, Re.sub. rewrite (sub_paren_unchanged _ _ H).
  reflexivity.
Qed.

End VenueFacts.

(** X12, a venue whose parenthesis is not closed. *)
Lemma venue_name_unclosed_parenthesis :
  venue_name_of (R := cpython_latin1) (u " Arena (St-Aug ") = u "Arena (St-Aug".
Proof.
  rewrite (venue_name_without_parenthesis (R := cpython_latin1) (u " Arena (St-Aug ")).
  - vm_compute. reflexivity.
  - right. intros H. apply list_elem_of_In in H. vm_compute in H.
    repeat (destruct H as [H|H]; [discriminate H|]). exact H.
Defined.

(** ** Date resolution *)

(** X13: a timestamp that [parse_french_date] gives is a date of the
    calendar on a whole minute; its day, month, hour and minute are the
    numbers read from the two texts (the month through the table of French
    names, on the lowered name); with a year supplied it has that year and
    the clock is not read, and without one the clock is read once. *)
Theorem parse_french_date_fields {R : Runtime} (clock : nat -> datetime)
    (date_str time_str : pystr) (yr : option Z) (t : nat) (dt : datetime) (t' : nat) :
  parse_french_date clock date_str time_str yr t = Ok (Some dt, t') ->
  valid_datetime dt
  /\ second dt = 0 /\ microsecond dt = 0
  /\ (exists m, Re.search date_re date_str = Some m
                /\ py_int (Re.group m 1) = Ok (day dt)
                /\ FRENCH_MONTHS !! str_lower (Re.group m 2) = Some (month dt))
  /\ (exists tm, Re.search time_re time_str = Some tm
                 /\ py_int (Re.group tm 1) = Ok (hour dt)
                 /\ py_int (Re.group tm 2) = Ok (minute dt))
  /\ match yr with
     | Some y => year dt = y /\ t' = t
     | None => t' = S t
     end.
Proof.
  intros H. apply parse_french_date_Some in H.
  destruct H as (H1 & H2 & H3 & H4 & H5 & H6).
  repeat (split; [assumption|]). destruct yr; tauto.
Qed.

(** X13, a date with the year supplied. *)
Lemma parse_french_date_fields_2030 :
  parse_french_date (R := cpython_latin1) clock_dec20
    (u "Mardi 5 MARS") (u "9:05") (Some 2030) 7%nat
  = Ok (Some (mkdt 2030 3 5 9 5 0 0), 7%nat)
  /\ valid_datetime (mkdt 2030 3 5 9 5 0 0).
Proof.
  split; [vm_compute; reflexivity|].
  exact (proj1 (parse_french_date_fields (R := cpython_latin1) clock_dec20
                  (u "Mardi 5 MARS") (u "9:05") (Some 2030) 7%nat
                  (mkdt 2030 3 5 9 5 0 0) 7%nat ltac:(vm_compute; reflexivity))).
Defined.

(** ** The date text of the scripts *)

Lemma zpad2_table :
  forallb (fun k => bool_decide (zpad 2 (Z.of_nat k) = two_digits (Z.of_nat k)))
    (seq 0 100) = true.
Proof. vm_compute. reflexivity. Qed.

Lemma zpad4_table :
  forallb (fun k => bool_decide (zpad 4 (Z.of_nat k) = four_digits (Z.of_nat k)))
    (seq 0 (100 * 100)) = true.
Proof. vm_compute. reflexivity. Qed.

Lemma zpad2_spec n : 0 <= n <= 99 -> zpad 2 n = two_digits n.
Proof.
  intros Hn. pose proof zpad2_table as H. rewrite forallb_forall in H.
  assert (In (Z.to_nat n) (seq 0 100)) as Hin by (apply in_seq; lia).
  specialize (H _ Hin). apply bool_decide_eq_true in H.
  rewrite Z2Nat.id in H by lia. exact H.
Qed.

Lemma zpad4_spec n : 0 <= n <= 9999 -> zpad 4 n = four_digits n.
Proof.
  intros Hn. pose proof zpad4_table as H. rewrite forallb_forall in H.
  assert (In (Z.to_nat n) (seq 0 (100 * 100))) as Hin by (apply in_seq; lia).
  specialize (H _ Hin). apply bool_decide_eq_true in H.
  rewrite Z2Nat.id in H by lia. exact H.
Qed.

Lemma two_digits_inj a b : 0 <= a <= 99 -> 0 <= b <= 99 -> two_digits a = two_digits b -> a = b.
Proof.
  unfold two_digits. intros Ha Hb [= H1 H2].
  apply Z2N.inj in H1, H2; Z.to_euclidean_division_equations; lia.
Qed.

Lemma four_digits_inj a b :
  0 <= a <= 9999 -> 0 <= b <= 9999 -> four_digits a = four_digits b -> a = b.
Proof.
  unfold four_digits. intros Ha Hb [= H1 H2 H3 H4].
  apply Z2N.inj in H1, H2, H3, H4; Z.to_euclidean_division_equations; lia.
Qed.

Lemma days_in_month_le_31 y m : 1 <= m <= 12 -> days_in_month y m <= 31.
Proof.
  intros Hm. unfold days_in_month. destruct (_ && _); [lia|].
  destruct (month_cases _ Hm) as [E|[E|[E|[E|[E|[E|[E|[E|[E|[E|[E|E]]]]]]]]]]];
    rewrite E; simpl; lia.
Qed.

Lemma strftime_us_explicit dt :
  valid_datetime dt ->
  strftime_us dt =
    two_digits (month dt) ++ [47%N] ++ two_digits (day dt) ++ [47%N]
    ++ four_digits (year dt) ++ [32%N] ++ two_digits (hour12 (hour dt)) ++ [58%N]
    ++ two_digits (minute dt) ++ [58%N] ++ two_digits (second dt) ++ [32%N]
    ++ [if hour dt <? 12 then 65%N else 80%N; 77%N].
Proof.
  intros (Hy & Hm & Hd & Hh & Hmi & Hs & Hu). unfold strftime_us.
  pose proof (days_in_month_le_31 (year dt) _ Hm) as Hdim.
  assert (1 <= hour12 (hour dt) <= 12) as Hh12.
  { unfold hour12. destruct (Z.eqb_spec (hour dt mod 12) 0);
      Z.to_euclidean_division_equations; lia. }
  fold (hour12 (hour dt)).
  rewrite !zpad2_spec, zpad4_spec by lia.
  destruct (hour dt <? 12); reflexivity.
Qed.

Lemma hour12_range h : 0 <= h <= 23 -> 1 <= hour12 h <= 12.
Proof.
  intros Hh. unfold hour12. destruct (Z.eqb_spec (h mod 12) 0);
    Z.to_euclidean_division_equations; lia.
Qed.

Lemma hour12_inj a b :
  0 <= a <= 23 -> 0 <= b <= 23 -> hour12 a = hour12 b ->
  (a <? 12) = (b <? 12) -> a = b.
Proof.
  unfold hour12. intros Ha Hb E F.
  destruct (Z.ltb_spec a 12), (Z.ltb_spec b 12); try discriminate;
    destruct (Z.eqb_spec (a mod 12) 0), (Z.eqb_spec (b mod 12) 0);
    Z.to_euclidean_division_equations; lia.
Qed.

Lemma am_pm_inj (x y : bool) :
  (if x then 65%N else 80%N) = (if y then 65%N else 80%N) -> x = y.
Proof. destruct x, y; intros E; try reflexivity; discriminate E. Qed.

(** X14: the date text that the two scripts are given tells the start of
    a game to the second: two dates of the calendar with the same text have
    the same year, month, day, hour, minute and second. *)
Theorem strftime_us_injective (a b : datetime) :
  valid_datetime a -> valid_datetime b -> strftime_us a = strftime_us b ->
  year a = year b /\ month a = month b /\ day a = day b
  /\ hour a = hour b /\ minute a = minute b /\ second a = second b.
Proof.
  intros Ha Hb E. rewrite (strftime_us_explicit a Ha), (strftime_us_explicit b Hb) in E.
  destruct Ha as (Hy & Hm & Hd & Hh & Hmi & Hs & _).
  destruct Hb as (Hy' & Hm' & Hd' & Hh' & Hmi' & Hs' & _).
  pose proof (days_in_month_le_31 (year a) _ Hm) as Hda.
  pose proof (days_in_month_le_31 (year b) _ Hm') as Hdb.
  pose proof (hour12_range _ Hh) as H12a. pose proof (hour12_range _ Hh') as H12b.
  apply app_inj_1 in E; [|reflexivity]. destruct E as [Emo E].
  apply app_inj_1 in E; [|reflexivity]. destruct E as [_ E].
  apply app_inj_1 in E; [|reflexivity]. destruct E as [Ed E].
  apply app_inj_1 in E; [|reflexivity]. destruct E as [_ E].
  apply app_inj_1 in E; [|reflexivity]. destruct E as [Ey E].
  apply app_inj_1 in E; [|reflexivity]. destruct E as [_ E].
  apply app_inj_1 in E; [|reflexivity]. destruct E as [Eh E].
  apply app_inj_1 in E; [|reflexivity]. destruct E as [_ E].
  apply app_inj_1 in E; [|reflexivity]. destruct E as [Emi E].
  apply app_inj_1 in E; [|reflexivity]. destruct E as [_ E].
  apply app_inj_1 in E; [|reflexivity]. destruct E as [Es E].
  apply app_inj_1 in E; [|reflexivity]. destruct E as [_ E].
  injection E as E. apply am_pm_inj in E.
  apply two_digits_inj in Emo; [|lia|lia].
  apply two_digits_inj in Ed; [|lia|lia].
  apply four_digits_inj in Ey; [|lia|lia].
  apply two_digits_inj in Eh; [|lia|lia].
  apply two_digits_inj in Emi; [|lia|lia].
  apply two_digits_inj in Es; [|lia|lia].
  pose proof (hour12_inj _ _ Hh Hh' Eh E) as Ehour.
  tauto.
Qed.

(** X14, two starts that differ in the microseconds only. *)
Lemma strftime_us_injective_scenario :
  strftime_us (mkdt 2024 12 15 18 0 0 0) = strftime_us (mkdt 2024 12 15 18 0 0 5)
  /\ year (mkdt 2024 12 15 18 0 0 0) = year (mkdt 2024 12 15 18 0 0 5)
  /\ month (mkdt 2024 12 15 18 0 0 0) = month (mkdt 2024 12 15 18 0 0 5)
  /\ day (mkdt 2024 12 15 18 0 0 0) = day (mkdt 2024 12 15 18 0 0 5)
  /\ hour (mkdt 2024 12 15 18 0 0 0) = hour (mkdt 2024 12 15 18 0 0 5)
  /\ minute (mkdt 2024 12 15 18 0 0 0) = minute (mkdt 2024 12 15 18 0 0 5)
  /\ second (mkdt 2024 12 15 18 0 0 0) = second (mkdt 2024 12 15 18 0 0 5).
Proof.
  split; [vm_compute; reflexivity|].
  apply (strftime_us_injective (mkdt 2024 12 15 18 0 0 0) (mkdt 2024 12 15 18 0 0 5)).
  - unfold valid_datetime. vm_compute. intuition discriminate.
  - unfold valid_datetime. vm_compute. intuition discriminate.
  - vm_compute. reflexivity.
Defined.

(** ** The two encodings of a start *)

(** X15: the start of a game comes from one of the two encodings. Either
    the cells of the row hold an absolute date and a time, and the clock is
    read once, by the filter of past games; or they do not, a date header
    with a text came before the row, the start is that text resolved with
    the first date text of the row, and the clock is read twice. *)
Theorem start_of_game_encoding {R : Runtime} (clock : nat -> datetime)
    (my_teams : list pystr) (cur : option pystr) (row : node) (t : nat)
    (g : game) (t' : nat) :
  process_row clock my_teams cur row t = Ok (Some g, t') ->
  (exists venue,
     scan_cells (find_all (u "td") row) (find_all (u "td") row)
       = Ok (Some (start g), venue)
     /\ t' = S t)
  \/ (exists venue c s game_date_div,
        scan_cells (find_all (u "td") row) (find_all (u "td") row) = Ok (None, venue)
        /\ cur = Some (c :: s)
        /\ find_class (u "div") (u "game_date") row = Some game_date_div
        /\ parse_french_date clock (c :: s) (get_text_strip game_date_div) None t
           = Ok (Some (start g), S t)
        /\ t' = S (S t)).
Proof.
  intros H. apply process_row_Some in H.
  destruct H as (category & dt & venue & t1 & _ & _ & Hdv & -> & _ & _ & -> & _).
  unfold row_datetime_venue in Hdv. inv_M.
  destruct a as [[gd|] v].
  - left. exists v.
    assert (Some dt = Some gd /\ t1 = t) as ([= ->] & ->)
      by (destruct cur as [[|c s]|]; inv_M; split; congruence).
    auto.
  - right. destruct cur as [[|c s]|]; inv_M; try discriminate.
    match goal with
    | E : (Some dt, venue) = (_, _) |- _ => injection E as <- _
    end.
    destruct (find_class (u "div") (u "game_date") row) as [game_date_div|] eqn:Hdiv;
      inv_M; [|discriminate].
    match goal with
    | Hp : parse_french_date _ _ _ None _ = Ok _ |- _ =>
        pose proof Hp as Hq; apply parse_french_date_Some in Hq;
        destruct Hq as (_ & _ & _ & _ & _ & _ & ->)
    end.
    exists v, c, s, game_date_div. auto.
Qed.

(** X15, a row in the relative encoding under the header
    "lundi, 15 décembre", read on 2024-12-01. *)
Lemma start_of_game_relative_scenario :
  exists g,
    process_row (R := cpython_latin1) clock_dec01 [u "Team B"]
      (Some (u "lundi, 15 décembre")) relative_row 0%nat = Ok (Some g, 2%nat)
    /\ start g = mkdt 2024 12 15 18 0 0 0
    /\ ((exists venue,
           scan_cells (R := cpython_latin1) (find_all (u "td") relative_row)
             (find_all (u "td") relative_row) = Ok (Some (start g), venue)
           /\ 2%nat = 1%nat)
        \/ (exists venue c s game_date_div,
              scan_cells (R := cpython_latin1) (find_all (u "td") relative_row)
                (find_all (u "td") relative_row) = Ok (None, venue)
              /\ Some (u "lundi, 15 décembre") = Some (c :: s)
              /\ find_class (u "div") (u "game_date") relative_row = Some game_date_div
              /\ parse_french_date (R := cpython_latin1) clock_dec01 (c :: s)
                   (get_text_strip (R := cpython_latin1) game_date_div) None 0%nat
                 = Ok (Some (start g), 1%nat)
              /\ 2%nat = 2%nat)).
Proof.
  eexists. split; [vm_compute; reflexivity|]. split; [reflexivity|].
  apply (start_of_game_encoding (R := cpython_latin1) clock_dec01 [u "Team B"]
           (Some (u "lundi, 15 décembre")) relative_row 0%nat _ 2%nat).
  vm_compute. reflexivity.
Defined.
